(** * A repeated attacker/defender security game: engine and decision policies

    Shallow embedding of [game_theory_network.py] (class [NetworkSecurityGame]
    and the policies [PassiveDefender], [RandomAttacker], [EnhancedTitForTat])
    together with the properties stated about them.

    Modelling conventions.
    - Python [str] values are [string]s (the UTF-8 bytes of the literal),
      Python [int]s are [Z], the dictionaries are [gmap]s, the history list is
      a [list] of records.
    - Python floats are modelled by exact rationals [Q]: a draw of
      [random.random()] is a rational in the half-open interval from 0 to 1,
      the literals 0.2, 0.3, 0.7 and 0.8 are the decimal fractions, and
      [aggressive_count / len(recent_moves)] is the exact quotient.
    - A call either returns a value or raises; in both cases it leaves a
      state behind ([M]).  The state of the [random] module, global in the
      source, is threaded explicitly.
    - Plotting and [main] are not modelled. *)

From Stdlib Require Import QArith.
From stdpp Require Import gmap strings list fin_maps.

Open Scope Z_scope.

(** * The model *)

(** ** Exceptions and the state-and-exception monad *)

Inductive exn : Type :=
  | KeyError
  | ZeroDivisionError
  | TypeError
  | IndexError.

Inductive outcome (A : Type) : Type :=
  | Returns (a : A)
  | Raises (e : exn).
Arguments Returns {A} a.
Arguments Raises {A} e.

(** A computation over a state [S]: the state that is left behind is
    returned in both cases, as a raised Python exception does not roll
    back earlier mutations. *)
Definition M (S A : Type) : Type := S -> outcome A * S.

#[global] Instance M_ret {S} : MRet (M S) :=
  fun A a s => (Returns a, s).

#[global] Instance M_bind {S} : MBind (M S) :=
  fun A B f m s =>
    match m s with
    | (Returns a, s') => f a s'
    | (Raises e, s') => (Raises e, s')
    end.

Definition raise {S A} (e : exn) : M S A := fun s => (Raises e, s).

Definition lift_outcome {S A} (o : outcome A) : M S A := fun s => (o, s).

(** [for _ in range(n): body] *)
Fixpoint for_range {S} (n : nat) (body : M S unit) : M S unit :=
  match n with
  | O => mret tt
  | S n' => body;; for_range n' body
  end.

(** ** The [random] module

    The generator behind [random.random] and [random.choice] is not part of
    the repository; it is an interface with a hidden state.  [random_choice]
    is only ever called on a non-empty list literal. *)

Class RandomModule : Type := {
  rng : Type;
  random_random : rng -> Q * rng;
  random_choice : list string -> rng -> string * rng
}.

(** What the library documents about the two functions. *)
Class RandomModuleLaws (R : RandomModule) : Prop := {
  random_random_range :
    forall g : rng, (0 <= fst (random_random g))%Q /\ (fst (random_random g) < 1)%Q;
  random_choice_elem :
    forall (l : list string) (g : rng), l <> [] -> fst (random_choice l g) ∈ l
}.

(** [x < y] on rationals as a boolean. *)
Definition Qlt_bool (x y : Q) : bool := negb (Qle_bool y x).

(** ** Data *)

Definition Defend : string := "防御".
Definition DoNotDefend : string := "不防御".
Definition Attack : string := "攻击".
Definition DoNotAttack : string := "不攻击".
Definition DefenderRole : string := "防守方".
Definition AttackerRole : string := "攻击方".

(** One entry of [history]: the dictionary with the keys ['round'],
    ['decisions'] and ['payoffs']. *)
Record RoundRecord : Type := {
  round : Z;
  decisions : string * string;
  payoffs : Z * Z
}.

Record NetworkSecurityGame : Type := {
  payoff_matrix : gmap (string * string) (Z * Z);
  history : list RoundRecord;
  scores : gmap string Z
}.

(** [NetworkSecurityGame.__init__] *)
Definition NetworkSecurityGame_init : NetworkSecurityGame :=
  {| payoff_matrix :=
       <[(Defend, DoNotAttack) := (3, 3)]>
       (<[(Defend, Attack) := (-2, 1)]>
       (<[(DoNotDefend, Attack) := (-8, 8)]>
       (<[(DoNotDefend, DoNotAttack) := (4, 4)]> ∅)));
     history := [];
     scores := <[DefenderRole := 0]> (<[AttackerRole := 0]> ∅) |}.

(** [t[i]] on a 2-tuple, for the indices 0 and 1 the code uses. *)
Definition tuple_get {A} (i : nat) (t : A * A) : A :=
  match i with
  | O => fst t
  | _ => snd t
  end.

(** [l[start:]] with Python's adjustment of the start index: a negative
    start counts from the end and is clipped at 0, a start beyond the end is
    clipped at the length. *)
Definition slice_from {A} (start : Z) (l : list A) : list A :=
  let n := Z.of_nat (length l) in
  let start' := if start <? 0 then Z.max (start + n) 0 else Z.min start n in
  drop (Z.to_nat start') l.

Definition Zsum (l : list Z) : Z := foldr Z.add 0 l.

(** ** The policies

    None of the three classes keeps a state of its own between calls. *)

Record PassiveDefender : Type := { defense_prob : Q }.

(** [PassiveDefender.__init__]: the argument is stored as it comes. *)
Definition PassiveDefender_init (defense_prob : Q) : outcome PassiveDefender :=
  Returns {| defense_prob := defense_prob |}.

Record EnhancedTitForTat : Type := {
  is_defender : bool;
  memory_size : Z;
  role : string;
  opponent_history : list string
}.

(** [EnhancedTitForTat.__init__]: the arguments are stored as they come. *)
Definition EnhancedTitForTat_init (is_defender : bool) (memory_size : Z)
    : outcome EnhancedTitForTat :=
  Returns {| is_defender := is_defender;
             memory_size := memory_size;
             role := if is_defender then DefenderRole else AttackerRole;
             opponent_history := [] |}.

(** The index [0 if not self.is_defender else 1]. *)
Definition opponent_index (self : EnhancedTitForTat) : nat :=
  if negb (is_defender self) then 0%nat else 1%nat.

(** The condition of the generator expression in [analyze_pattern]. *)
Definition is_aggressive (self : EnhancedTitForTat) (move : string) : bool :=
  (is_defender self && String.eqb move Attack)
  || (negb (is_defender self) && String.eqb move Defend).

(** [EnhancedTitForTat.analyze_pattern]; it draws nothing, so it is a plain
    function.  [None] is Python's [None]. *)
Definition analyze_pattern (self : EnhancedTitForTat)
    (history : list RoundRecord) : outcome (option Q) :=
  match history with
  | [] => Returns None
  | _ =>
      let recent_moves :=
        map (fun h => tuple_get (opponent_index self) (decisions h))
            (slice_from (- memory_size self) history) in
      let aggressive_count :=
        Zsum (map (fun _ => 1)
                (filter (fun move => is_aggressive self move = true) recent_moves)) in
      match length recent_moves with
      | O => Raises ZeroDivisionError
      | n => Returns (Some (inject_Z aggressive_count / inject_Z (Z.of_nat n))%Q)
      end
  end.

(** [rate > bound] and [rate < bound]; comparing [None] with a float raises
    [TypeError]. *)
Definition rate_gt (rate : option Q) (bound : Q) : outcome bool :=
  match rate with
  | Some r => Returns (Qlt_bool bound r)
  | None => Raises TypeError
  end.

Definition rate_lt (rate : option Q) (bound : Q) : outcome bool :=
  match rate with
  | Some r => Returns (Qlt_bool r bound)
  | None => Raises TypeError
  end.

(** The policy objects the engine is handed, one constructor per class. *)
Inductive policy : Type :=
  | PolicyPassiveDefender (p : PassiveDefender)
  | PolicyRandomAttacker
  | PolicyEnhancedTitForTat (t : EnhancedTitForTat).

(** ** The engine and the decisions, over a random module *)

Section Game.
Context {R : RandomModule}.

(** A strategy is a callable that receives the history and may draw from
    the random module. *)
Definition strategy : Type := list RoundRecord -> M rng string.

(** The state the engine runs in: the session object and the generator. *)
Definition world : Type := (NetworkSecurityGame * rng)%type.

(** [strategy(self.history)] *)
Definition call_strategy (f : strategy) : M world string :=
  fun w =>
    match f (history (fst w)) (snd w) with
    | (r, g') => (r, (fst w, g'))
    end.

(** [self.payoff_matrix[key]] *)
Definition payoff_getitem (key : string * string) : M world (Z * Z) :=
  fun w =>
    match payoff_matrix (fst w) !! key with
    | Some v => (Returns v, w)
    | None => (Raises KeyError, w)
    end.

(** [self.scores[key] += delta] *)
Definition scores_iadd (key : string) (delta : Z) : M world unit :=
  fun w =>
    match scores (fst w) !! key with
    | Some v =>
        (Returns tt,
         ({| payoff_matrix := payoff_matrix (fst w);
             history := history (fst w);
             scores := <[key := v + delta]> (scores (fst w)) |}, snd w))
    | None => (Raises KeyError, w)
    end.

(** [self.history.append({...})] with ['round': len(self.history) + 1] *)
Definition history_append (decision_a decision_b : string)
    (payoff_a payoff_b : Z) : M world unit :=
  fun w =>
    (Returns tt,
     ({| payoff_matrix := payoff_matrix (fst w);
         history := history (fst w) ++
           [ {| round := Z.of_nat (length (history (fst w))) + 1;
                decisions := (decision_a, decision_b);
                payoffs := (payoff_a, payoff_b) |} ];
         scores := scores (fst w) |}, snd w)).

(** [NetworkSecurityGame.play_round] *)
Definition play_round (strategy_a strategy_b : strategy) : M world unit :=
  decision_a ← call_strategy strategy_a;
  decision_b ← call_strategy strategy_b;
  p ← payoff_getitem (decision_a, decision_b);
  scores_iadd DefenderRole (fst p);;
  scores_iadd AttackerRole (snd p);;
  history_append decision_a decision_b (fst p) (snd p).

(** [NetworkSecurityGame.run_game]; [range(rounds)] is empty for a negative
    [rounds]. *)
Definition run_game (strategy_a strategy_b : strategy) (rounds : Z)
    : M world unit :=
  for_range (Z.to_nat rounds) (play_round strategy_a strategy_b).

(** [PassiveDefender.make_decision] *)
Definition PassiveDefender_make_decision (self : PassiveDefender) : strategy :=
  fun _ g =>
    let (u, g') := random_random g in
    (Returns (if Qlt_bool u (defense_prob self) then Defend else DoNotDefend), g').

(** [RandomAttacker.make_decision] *)
Definition RandomAttacker_make_decision : strategy :=
  fun _ g =>
    let (c, g') := random_choice [Attack; DoNotAttack] g in
    (Returns c, g').

(** [random.random() < p] *)
Definition random_below (p : Q) : M rng bool :=
  fun g => let (u, g') := random_random g in (Returns (Qlt_bool u p), g').

(** [EnhancedTitForTat.make_decision]; [or] evaluates its second operand
    only when the first is false. *)
Definition EnhancedTitForTat_make_decision (self : EnhancedTitForTat) : strategy :=
  fun history =>
    match history with
    | [] => mret (if is_defender self then Defend else DoNotAttack)
    | _ =>
        aggressive_rate ← lift_outcome (analyze_pattern self history);
        last_record ← match last history with
                      | Some h => mret h
                      | None => raise IndexError
                      end;
        let opponent_last_move :=
          tuple_get (opponent_index self) (decisions last_record) in
        if is_defender self then
          pressed ← (if String.eqb opponent_last_move Attack then mret true
                     else lift_outcome (rate_gt aggressive_rate 0.7%Q));
          if (pressed : bool) then mret Defend
          else
            relax ← random_below 0.2%Q;
            mret (if (relax : bool) then DoNotDefend else Defend)
        else
          lax ← (if String.eqb opponent_last_move DoNotDefend then mret true
                 else lift_outcome (rate_lt aggressive_rate 0.3%Q));
          if (lax : bool) then mret Attack
          else
            hold ← random_below 0.8%Q;
            mret (if (hold : bool) then DoNotAttack else Attack)
    end.

(** Dispatch on the policy object: [policy.make_decision(h)]. *)
Definition make_decision (p : policy) : strategy :=
  match p with
  | PolicyPassiveDefender d => PassiveDefender_make_decision d
  | PolicyRandomAttacker => RandomAttacker_make_decision
  | PolicyEnhancedTitForTat t => EnhancedTitForTat_make_decision t
  end.

(** The strategy that returns the same action every round. *)
Definition constant_strategy (action : string) : strategy :=
  fun _ => mret action.

(** The part of a round that follows the two decisions. *)
Definition settle (decision_a decision_b : string) : M world unit :=
  p ← payoff_getitem (decision_a, decision_b);
  scores_iadd DefenderRole (fst p);;
  scores_iadd AttackerRole (snd p);;
  history_append decision_a decision_b (fst p) (snd p).

(** Observations on the result of a computation of the engine. *)
Definition outcome_of {A} (x : outcome A * world) : outcome A := fst x.
Definition session_of {A} (x : outcome A * world) : NetworkSecurityGame :=
  fst (snd x).
Definition generator_of {A} (x : outcome A * world) : rng := snd (snd x).

End Game.

(** ** A scripted random source

    A concrete [random] module for running the model: the state is the list
    of raw numbers still to be handed out (an exhausted script hands out 0).
    [random.random] reads a raw number as thousandths, [random.choice] as an
    index modulo the length of the list. *)

Definition scripted_random (g : list Z) : Q * list Z :=
  (Qmake (hd 0 g `mod` 1000) 1000, tail g).

Definition scripted_choice (l : list string) (g : list Z) : string * list Z :=
  (nth (Z.to_nat (hd 0 g `mod` Z.of_nat (length l))) l EmptyString, tail g).

Definition ScriptedRandom : RandomModule :=
  {| rng := list Z;
     random_random := scripted_random;
     random_choice := scripted_choice |}.

(** ** Vocabulary of the properties *)

(** The per-round payoffs of each role. *)
Definition defender_payoffs (h : list RoundRecord) : list Z :=
  map (fun r => fst (payoffs r)) h.
Definition attacker_payoffs (h : list RoundRecord) : list Z :=
  map (fun r => snd (payoffs r)) h.

(** The two action domains and their four pairs. *)
Definition defender_action (a : string) : Prop := a = Defend \/ a = DoNotDefend.
Definition attacker_action (b : string) : Prop := b = Attack \/ b = DoNotAttack.
Definition valid_pair (a b : string) : Prop :=
  defender_action a /\ attacker_action b.

(** The record a completed round appends. *)
Definition new_record (s : NetworkSecurityGame) (a b : string) (p : Z * Z)
    : RoundRecord :=
  {| round := Z.of_nat (length (history s)) + 1;
     decisions := (a, b);
     payoffs := p |}.

(** The session a completed round leaves behind. *)
Definition session_after_round (s : NetworkSecurityGame) (a b : string)
    (p : Z * Z) (d t : Z) : NetworkSecurityGame :=
  {| payoff_matrix := payoff_matrix s;
     history := history s ++ [new_record s a b p];
     scores := <[AttackerRole := t + snd p]>
                 (<[DefenderRole := d + fst p]> (scores s)) |}.

(** The window as the specification words it: the last
    [min(memoryWindow, |history|)] records. *)
Definition window_spec (memoryWindow : Z) (h : list RoundRecord)
    : list RoundRecord :=
  drop (length h - Z.to_nat (Z.min memoryWindow (Z.of_nat (length h)))) h.

(** The opponent's action in a record, for the role the policy plays. *)
Definition opponent_action (defender : bool) (r : RoundRecord) : string :=
  if defender then snd (decisions r) else fst (decisions r).

(** An opponent action is aggressive when it is Attack (seen by the
    defender) or Defend (seen by the attacker). *)
Definition aggressive_spec (defender : bool) (a : string) : Prop :=
  if defender then a = Attack else a = Defend.

#[global] Instance aggressive_spec_dec defender a :
  Decision (aggressive_spec defender a).
Proof. destruct defender; simpl; apply _. Defined.

(** The rate as the specification words it: the number of aggressive
    opponent actions in the window over the size of the window. *)
Definition aggressiveRate_spec (defender : bool) (memoryWindow : Z)
    (h : list RoundRecord) : Q :=
  let window := window_spec memoryWindow h in
  (inject_Z (Z.of_nat (length
     (filter (aggressive_spec defender) (map (opponent_action defender) window))))
   / inject_Z (Z.of_nat (length window)))%Q.

(** A policy object that can be put in the defender's seat: a
    [PassiveDefender], or an [EnhancedTitForTat] built as defender whose
    window is not negative; and likewise for the attacker's seat. *)
Definition defender_policy (p : policy) : Prop :=
  match p with
  | PolicyPassiveDefender _ => True
  | PolicyRandomAttacker => False
  | PolicyEnhancedTitForTat t => is_defender t = true /\ 0 <= memory_size t
  end.

Definition attacker_policy (p : policy) : Prop :=
  match p with
  | PolicyPassiveDefender _ => False
  | PolicyRandomAttacker => True
  | PolicyEnhancedTitForTat t => is_defender t = false /\ 0 <= memory_size t
  end.

(** Two random sources, each in some state, that hand out the same values
    from there on: a relation [sim] between their states that both functions
    preserve.  One source in one state is the case of [sim] being
    equality. *)
Definition same_draws (R1 R2 : RandomModule)
    (sim : @rng R1 -> @rng R2 -> Prop) : Prop :=
  (forall g1 g2, sim g1 g2 ->
     fst (@random_random R1 g1) = fst (@random_random R2 g2)
     /\ sim (snd (@random_random R1 g1)) (snd (@random_random R2 g2)))
  /\ (forall l g1 g2, sim g1 g2 ->
        fst (@random_choice R1 l g1) = fst (@random_choice R2 l g2)
        /\ sim (snd (@random_choice R1 l g1)) (snd (@random_choice R2 l g2))).

(** Two results of a strategy over the two sources agree. *)
Definition agree {R1 R2 : RandomModule} (sim : @rng R1 -> @rng R2 -> Prop)
    {A} (x1 : outcome A * @rng R1) (x2 : outcome A * @rng R2) : Prop :=
  fst x1 = fst x2 /\ sim (snd x1) (snd x2).

(** Two results of the engine over the two sources agree: same outcome,
    same session, related generator states. *)
Definition agree_world {R1 R2 : RandomModule} (sim : @rng R1 -> @rng R2 -> Prop)
    {A} (x1 : outcome A * @world R1) (x2 : outcome A * @world R2) : Prop :=
  outcome_of x1 = outcome_of x2
  /\ session_of x1 = session_of x2
  /\ sim (generator_of x1) (generator_of x2).

(** ** The series of [plot_results]

    numpy and matplotlib are not part of the repository.  The drawing calls
    are not modelled; what is modelled is the data handed to them: the
    per-round payoff lists, their cumulative sums and the x axis.
    [np.cumsum] of a list of Python integers is computed in 64-bit signed
    integers, each partial sum wrapping around. *)

Definition wrap_int64 (z : Z) : Z := (z + 2 ^ 63) `mod` 2 ^ 64 - 2 ^ 63.

Fixpoint np_cumsum_from (acc : Z) (l : list Z) : list Z :=
  match l with
  | [] => []
  | x :: l' =>
      let acc' := wrap_int64 (acc + x) in
      acc' :: np_cumsum_from acc' l'
  end.

(** [np.cumsum(l)] *)
Definition np_cumsum (l : list Z) : list Z := np_cumsum_from 0 l.

(** What [plot_results] computes before it draws: [rounds], [payoffs_a],
    [payoffs_b], [cumulative_a], [cumulative_b], and the x axis
    [range(1, rounds + 1)] shared by the four curves. *)
Record plot_series : Type := {
  plot_rounds : Z;
  plot_payoffs_a : list Z;
  plot_payoffs_b : list Z;
  plot_cumulative_a : list Z;
  plot_cumulative_b : list Z;
  plot_x : list Z
}.

Definition plot_results (self : NetworkSecurityGame) : plot_series :=
  let rounds := Z.of_nat (length (history self)) in
  let payoffs_a := map (fun h => fst (payoffs h)) (history self) in
  let payoffs_b := map (fun h => snd (payoffs h)) (history self) in
  {| plot_rounds := rounds;
     plot_payoffs_a := payoffs_a;
     plot_payoffs_b := payoffs_b;
     plot_cumulative_a := np_cumsum payoffs_a;
     plot_cumulative_b := np_cumsum payoffs_b;
     plot_x := seqZ 1 (rounds + 1 - 1) |}.

(** ** The experiment of [main]

    Printing and plotting are not modelled; [main] is modelled by the four
    totals it accumulates, in the order the source declares them. *)

Section Main.
Context {R : RandomModule}.

(** The body of either loop of [main]: a new session, a run of [rounds]
    rounds, and the two scores added to the running totals. *)
Definition main_iteration (defender attacker : policy) (rounds : Z)
    (totals : Z * Z) : M rng (Z * Z) :=
  fun g =>
    match run_game (make_decision defender) (make_decision attacker) rounds
            (NetworkSecurityGame_init, g) with
    | (Raises e, (_, g')) => (Raises e, g')
    | (Returns _, (game, g')) =>
        match scores game !! DefenderRole with
        | None => (Raises KeyError, g')
        | Some d =>
            match scores game !! AttackerRole with
            | None => (Raises KeyError, g')
            | Some a => (Returns (fst totals + d, snd totals + a), g')
            end
        end
    end.

(** [for i in range(n): totals = body(totals)] *)
Fixpoint main_loop (n : nat) (body : Z * Z -> M rng (Z * Z)) (totals : Z * Z)
    : M rng (Z * Z) :=
  match n with
  | O => mret totals
  | S n' => totals' ← body totals; main_loop n' body totals'
  end.

(** [main]: the totals [EnhancedTitForTat_total_defender_score],
    [total_attacker_score_1], [PassiveDefender_total_attacker_score] (which
    accumulates the defender's score of the second match-up) and
    [total_attacker_score_2]. *)
Definition main : M rng (Z * Z * (Z * Z)) :=
  let num_iterations := 5%nat in
  let rounds := 100 in
  defender_strategies_1 ← lift_outcome (EnhancedTitForTat_init true 3);
  defender_strategies_2 ← lift_outcome (PassiveDefender_init 0.5%Q);
  let attacker_strategies := PolicyRandomAttacker in
  totals_1 ← main_loop num_iterations
      (main_iteration (PolicyEnhancedTitForTat defender_strategies_1)
         attacker_strategies rounds) (0, 0);
  totals_2 ← main_loop num_iterations
      (main_iteration (PolicyPassiveDefender defender_strategies_2)
         attacker_strategies rounds) (0, 0);
  mret (totals_1, totals_2).

End Main.

(** * Properties *)

(** ** Basic facts *)

Lemma Qlt_bool_iff (x y : Q) : Qlt_bool x y = true <-> (x < y)%Q.
Proof.
  unfold Qlt_bool. rewrite negb_true_iff. split.
  - intros H. apply Qnot_le_lt. intros Hle.
    apply Qle_bool_iff in Hle. congruence.
  - intros H. destruct (Qle_bool y x) eqn:E; [| reflexivity].
    apply Qle_bool_iff in E. exfalso. exact (Qlt_not_le _ _ H E).
Qed.

Lemma role_names_differ : DefenderRole <> AttackerRole.
Proof. discriminate. Qed.

Lemma Zsum_bounds (lo hi : Z) (l : list Z) :
  Forall (fun z => lo <= z <= hi) l ->
  lo * Z.of_nat (length l) <= Zsum l <= hi * Z.of_nat (length l).
Proof.
  induction 1 as [| z l Hz _ IH]; simpl; [lia |].
  lia.
Qed.

Lemma Zsum_ones {A} (l : list A) :
  Zsum (map (fun _ => 1) l) = Z.of_nat (length l).
Proof. induction l as [| x l IH]; simpl; [reflexivity | rewrite IH; lia]. Qed.

Lemma bind_returns {S A B} (m : M S A) (f : A -> M S B) s a s' :
  m s = (Returns a, s') -> (m ≫= f) s = f a s'.
Proof. intros H. unfold mbind, M_bind. rewrite H. reflexivity. Qed.

Lemma bind_raises {S A B} (m : M S A) (f : A -> M S B) s e s' :
  m s = (Raises e, s') -> (m ≫= f) s = (Raises e, s').
Proof. intros H. unfold mbind, M_bind. rewrite H. reflexivity. Qed.

Lemma for_range_S {S} n (body : M S unit) s :
  for_range (Datatypes.S n) body s =
  match body s with
  | (Returns _, s') => for_range n body s'
  | (Raises e, s') => (Raises e, s')
  end.
Proof. reflexivity. Qed.

(** The loop stops at the first iteration that raises. *)
Lemma for_range_raises {S} n (body : M S unit) s e s' :
  body s = (Raises e, s') -> for_range (Datatypes.S n) body s = (Raises e, s').
Proof. intros H. rewrite for_range_S, H. reflexivity. Qed.

(** The scripted source is a lawful [random] module. *)
#[global] Instance ScriptedRandom_laws : RandomModuleLaws ScriptedRandom.
Proof.
  split.
  - intros g. simpl. unfold scripted_random. simpl.
    pose proof (Z.mod_pos_bound (hd 0 g) 1000 ltac:(lia)) as Hb.
    split; unfold Qle, Qlt; simpl; lia.
  - intros l g Hl. simpl. unfold scripted_choice. simpl.
    apply list_elem_of_In, nth_In.
    assert (0 < Z.of_nat (length l)) by (destruct l; [done | simpl; lia]).
    pose proof (Z.mod_pos_bound (hd 0 g) (Z.of_nat (length l)) ltac:(lia)).
    lia.
Qed.

(** ** The payoff table of a new session *)

Lemma init_scores_defender :
  scores NetworkSecurityGame_init !! DefenderRole = Some 0.
Proof. reflexivity. Qed.

Lemma init_scores_attacker :
  scores NetworkSecurityGame_init !! AttackerRole = Some 0.
Proof. reflexivity. Qed.

Lemma init_payoff_keys (a b : string) :
  is_Some (payoff_matrix NetworkSecurityGame_init !! (a, b)) <-> valid_pair a b.
Proof.
  unfold valid_pair, defender_action, attacker_action. split.
  - intros [v Hv]. simpl in Hv.
    repeat (rewrite lookup_insert in Hv; case_decide; simplify_eq/=; auto).
  - intros [[-> | ->] [-> | ->]]; eexists; reflexivity.
Qed.

Lemma init_payoff_missing (a b : string) :
  ~ valid_pair a b -> payoff_matrix NetworkSecurityGame_init !! (a, b) = None.
Proof.
  intros Hn. apply eq_None_not_Some. intros Hs. apply Hn, init_payoff_keys, Hs.
Qed.

Lemma init_payoff_defend (a b : string) :
  a = Defend -> attacker_action b ->
  is_Some (payoff_matrix NetworkSecurityGame_init !! (a, b)).
Proof. intros -> [-> | ->]; eexists; reflexivity. Qed.

(** ** One round, case by case *)

Section RoundFacts.
Context {R : RandomModule}.

(** A strategy raises: nothing of the session is touched. *)
Lemma play_round_strategy_a_raises sa sb s g e g1 :
  sa (history s) g = (Raises e, g1) ->
  play_round sa sb (s, g) = (Raises e, (s, g1)).
Proof.
  intros Ha. unfold play_round.
  apply bind_raises. unfold call_strategy. simpl. rewrite Ha. reflexivity.
Qed.

Lemma play_round_strategy_b_raises sa sb s g a g1 e g2 :
  sa (history s) g = (Returns a, g1) ->
  sb (history s) g1 = (Raises e, g2) ->
  play_round sa sb (s, g) = (Raises e, (s, g2)).
Proof.
  intros Ha Hb. unfold play_round.
  rewrite (bind_returns _ _ (s, g) a (s, g1))
    by (unfold call_strategy; simpl; rewrite Ha; reflexivity).
  apply bind_raises. unfold call_strategy. simpl. rewrite Hb. reflexivity.
Qed.

(** The joint action is not a key of the payoff table. *)
Lemma play_round_KeyError sa sb s g a g1 b g2 :
  sa (history s) g = (Returns a, g1) ->
  sb (history s) g1 = (Returns b, g2) ->
  payoff_matrix s !! (a, b) = None ->
  play_round sa sb (s, g) = (Raises KeyError, (s, g2)).
Proof.
  intros Ha Hb Hk. unfold play_round.
  rewrite (bind_returns _ _ (s, g) a (s, g1))
    by (unfold call_strategy; simpl; rewrite Ha; reflexivity).
  rewrite (bind_returns _ _ (s, g1) b (s, g2))
    by (unfold call_strategy; simpl; rewrite Hb; reflexivity).
  apply bind_raises. unfold payoff_getitem. simpl. rewrite Hk. reflexivity.
Qed.

(** The round completes: both scores are updated and one record is
    appended. *)
Lemma play_round_returns sa sb s g a g1 b g2 p d t :
  sa (history s) g = (Returns a, g1) ->
  sb (history s) g1 = (Returns b, g2) ->
  payoff_matrix s !! (a, b) = Some p ->
  scores s !! DefenderRole = Some d ->
  scores s !! AttackerRole = Some t ->
  play_round sa sb (s, g) = (Returns tt, (session_after_round s a b p d t, g2)).
Proof.
  intros Ha Hb Hk Hd Ht. unfold play_round.
  rewrite (bind_returns _ _ (s, g) a (s, g1))
    by (unfold call_strategy; simpl; rewrite Ha; reflexivity).
  rewrite (bind_returns _ _ (s, g1) b (s, g2))
    by (unfold call_strategy; simpl; rewrite Hb; reflexivity).
  rewrite (bind_returns _ _ (s, g2) p (s, g2))
    by (unfold payoff_getitem; simpl; rewrite Hk; reflexivity).
  unfold mbind, M_bind, scores_iadd, history_append. simpl.
  rewrite Hd. simpl.
  rewrite lookup_insert_ne by exact role_names_differ.
  rewrite Ht. simpl. unfold session_after_round, new_record.
  destruct p; reflexivity.
Qed.

Lemma play_round_unfold sa sb s g :
  play_round sa sb (s, g) =
  match sa (history s) g with
  | (Returns a, g1) =>
      match sb (history s) g1 with
      | (Returns b, g2) => settle a b (s, g2)
      | (Raises e, g2) => (Raises e, (s, g2))
      end
  | (Raises e, g1) => (Raises e, (s, g1))
  end.
Proof.
  unfold play_round, settle.
  unfold mbind at 1. unfold M_bind at 1. unfold call_strategy at 1. simpl.
  destruct (sa (history s) g) as [[a | e] g1]; [| reflexivity].
  unfold mbind at 1. unfold M_bind at 1. unfold call_strategy at 1. simpl.
  destruct (sb (history s) g1) as [[b | e] g2]; reflexivity.
Qed.

(** On a session that has both score entries a round either raises and
    leaves the session as it was, or completes. *)
Lemma play_round_cases sa sb s g d t :
  scores s !! DefenderRole = Some d ->
  scores s !! AttackerRole = Some t ->
  (exists e g', play_round sa sb (s, g) = (Raises e, (s, g')))
  \/ (exists a b p g',
        payoff_matrix s !! (a, b) = Some p
        /\ play_round sa sb (s, g)
           = (Returns tt, (session_after_round s a b p d t, g'))).
Proof.
  intros Hd Ht.
  destruct (sa (history s) g) as [[a | e] g1] eqn:Ha.
  2: { left. exists e, g1. by apply play_round_strategy_a_raises. }
  destruct (sb (history s) g1) as [[b | e] g2] eqn:Hb.
  2: { left. exists e, g2. by eapply play_round_strategy_b_raises. }
  destruct (payoff_matrix s !! (a, b)) as [p |] eqn:Hk.
  - right. exists a, b, p, g2. split; [exact Hk |].
    by eapply play_round_returns.
  - left. exists KeyError, g2. by eapply play_round_KeyError.
Qed.

Lemma session_after_round_defender s a b p d t :
  scores (session_after_round s a b p d t) !! DefenderRole = Some (d + fst p).
Proof.
  simpl.
  rewrite lookup_insert_ne by (intros E; symmetry in E; exact (role_names_differ E)).
  apply lookup_insert_eq.
Qed.

Lemma session_after_round_attacker s a b p d t :
  scores (session_after_round s a b p d t) !! AttackerRole = Some (t + snd p).
Proof. simpl. apply lookup_insert_eq. Qed.

(** One round on any session, well formed or not, keeps the records that
    are there, in place, and adds at most one behind them. *)
Lemma play_round_history_prefix (sa sb : strategy) s g :
  history s `prefix_of` history (session_of (play_round sa sb (s, g))).
Proof.
  unfold play_round, mbind, M_bind, call_strategy, payoff_getitem,
    scores_iadd, history_append, session_of.
  simpl.
  repeat case_match; simplify_eq/=;
    solve [ reflexivity | by apply prefix_app_r ].
Qed.

End RoundFacts.

(** ** Runs *)

Section RunFacts.
Context {R : RandomModule}.

(** What any number of rounds does to a session that has both score
    entries, whether the run completes or stops at an exception: the records
    [recs] are appended, numbered consecutively, every record holds the
    payoff pair of the table for its decisions, and each score grows by the
    sum of the payoffs of its role over [recs]. *)
Lemma for_range_play_round n sa sb : forall s g d t,
  scores s !! DefenderRole = Some d ->
  scores s !! AttackerRole = Some t ->
  exists recs,
    let x := for_range n (play_round sa sb) (s, g) in
    payoff_matrix (session_of x) = payoff_matrix s
    /\ history (session_of x) = history s ++ recs
    /\ scores (session_of x) !! DefenderRole = Some (d + Zsum (defender_payoffs recs))
    /\ scores (session_of x) !! AttackerRole = Some (t + Zsum (attacker_payoffs recs))
    /\ map round recs
       = seqZ (Z.of_nat (length (history s)) + 1) (Z.of_nat (length recs))
    /\ (length recs <= n)%nat
    /\ (outcome_of x = Returns tt -> length recs = n)
    /\ Forall (fun r => payoff_matrix s !! decisions r = Some (payoffs r)) recs.
Proof.
  induction n as [| n IH]; intros s g d t Hd Ht.
  - exists []. simpl. rewrite app_nil_r, !Z.add_0_r.
    repeat split; auto.
  - destruct (play_round_cases sa sb s g d t Hd Ht)
      as [(e & g' & Hr) | (a & b & p & g' & Hk & Hr)].
    + exists []. cbv zeta. rewrite (for_range_raises _ _ _ _ _ Hr).
      unfold session_of, outcome_of. simpl. rewrite app_nil_r, !Z.add_0_r.
      repeat split; auto with lia. discriminate.
    + set (s1 := session_after_round s a b p d t) in *.
      destruct (IH s1 g' _ _
                  (session_after_round_defender s a b p d t)
                  (session_after_round_attacker s a b p d t))
        as (recs & Hpm & Hh & Hsd & Hsa & Hrd & Hle & Hlen & Hall).
      exists (new_record s a b p :: recs). cbv zeta in *.
      rewrite for_range_S, Hr.
      repeat split.
      * rewrite Hpm. reflexivity.
      * rewrite Hh. unfold s1. simpl. rewrite <- app_assoc. reflexivity.
      * rewrite Hsd. simpl. f_equal. lia.
      * rewrite Hsa. simpl. f_equal. lia.
      * rewrite seqZ_cons by (simpl; lia). simpl. f_equal.
        rewrite Hrd. unfold s1. simpl. rewrite length_app. simpl.
        f_equal; lia.
      * simpl. lia.
      * intros Hok. simpl. f_equal. auto.
      * constructor; [exact Hk | exact Hall].
Qed.

Lemma for_range_history_prefix (sa sb : strategy) n : forall s g,
  history s `prefix_of`
    history (session_of (for_range n (play_round sa sb) (s, g))).
Proof.
  induction n as [| n IH]; intros s g; [reflexivity |].
  rewrite for_range_S.
  pose proof (play_round_history_prefix sa sb s g) as Hp.
  destruct (play_round sa sb (s, g)) as [[[] | e] [s1 g1]]; simpl in Hp.
  - etrans; [exact Hp | apply IH].
  - exact Hp.
Qed.

End RunFacts.

(** ** Runs of strategies that respect their action domains *)

Section ValidRuns.
Context {R : RandomModule}.
Variables (sa sb : strategy) (PA PB : string -> Prop).
Hypothesis sa_returns :
  forall h g, exists a g', sa h g = (Returns a, g') /\ PA a.
Hypothesis sb_returns :
  forall h g, exists b g', sb h g = (Returns b, g') /\ PB b.

(** When neither strategy raises and every joint action they can produce is
    a key of the table, every round completes. *)
Lemma for_range_valid n : forall s g d t,
  (forall a b, PA a -> PB b -> is_Some (payoff_matrix s !! (a, b))) ->
  scores s !! DefenderRole = Some d ->
  scores s !! AttackerRole = Some t ->
  exists recs,
    let x := for_range n (play_round sa sb) (s, g) in
    outcome_of x = Returns tt
    /\ history (session_of x) = history s ++ recs
    /\ length recs = n
    /\ Forall (fun r => PA (fst (decisions r)) /\ PB (snd (decisions r))
                        /\ payoff_matrix s !! decisions r = Some (payoffs r))
         recs.
Proof.
  induction n as [| n IH]; intros s g d t Hpm Hd Ht.
  - exists []. simpl. rewrite app_nil_r. auto.
  - destruct (sa_returns (history s) g) as (a & g1 & Ha & HPa).
    destruct (sb_returns (history s) g1) as (b & g2 & Hb & HPb).
    destruct (Hpm a b HPa HPb) as [p Hk].
    pose proof (play_round_returns sa sb s g a g1 b g2 p d t Ha Hb Hk Hd Ht)
      as Hr.
    set (s1 := session_after_round s a b p d t) in *.
    destruct (IH s1 g2 _ _ Hpm
                (session_after_round_defender s a b p d t)
                (session_after_round_attacker s a b p d t))
      as (recs & Hok & Hh & Hlen & Hall).
    exists (new_record s a b p :: recs). cbv zeta in *.
    rewrite for_range_S, Hr.
    repeat split.
    + exact Hok.
    + rewrite Hh. unfold s1. simpl. rewrite <- app_assoc. reflexivity.
    + simpl. f_equal. exact Hlen.
    + constructor; [simpl; auto | exact Hall].
Qed.

End ValidRuns.

(** ** The window of [EnhancedTitForTat] *)

Lemma slice_from_positive_window {A} (m : Z) (l : list A) :
  0 < m ->
  slice_from (- m) l
  = drop (length l - Z.to_nat (Z.min m (Z.of_nat (length l)))) l.
Proof.
  intros Hm. unfold slice_from.
  destruct (- m <? 0) eqn:E; [| apply Z.ltb_ge in E; lia].
  f_equal. lia.
Qed.

Lemma slice_from_zero {A} (l : list A) : slice_from (- 0) l = l.
Proof. unfold slice_from. simpl. rewrite Z.min_l by lia. reflexivity. Qed.

(** For a window that is not negative the slice of a non-empty history is
    not empty. *)
Lemma slice_from_nonempty {A} (m : Z) (l : list A) :
  0 <= m -> l <> [] -> slice_from (- m) l <> [].
Proof.
  intros Hm Hl.
  assert (Hlen : (0 < length l)%nat) by (destruct l; [done | simpl; lia]).
  intros E. apply (f_equal length) in E. simpl in E.
  destruct (Z.eq_dec m 0) as [-> | Hne].
  - rewrite slice_from_zero in E. lia.
  - rewrite slice_from_positive_window, length_drop in E by lia. lia.
Qed.

Lemma window_spec_length (m : Z) (h : list RoundRecord) :
  0 < m ->
  length (window_spec m h) = Z.to_nat (Z.min m (Z.of_nat (length h))).
Proof. intros Hm. unfold window_spec. rewrite length_drop. lia. Qed.

Lemma is_aggressive_spec (self : EnhancedTitForTat) (move : string) :
  is_aggressive self move = true <-> aggressive_spec (is_defender self) move.
Proof.
  unfold is_aggressive, aggressive_spec.
  destruct (is_defender self); simpl.
  - rewrite orb_false_r. apply String.eqb_eq.
  - apply String.eqb_eq.
Qed.

Lemma tuple_get_opponent (self : EnhancedTitForTat) (r : RoundRecord) :
  tuple_get (opponent_index self) (decisions r)
  = opponent_action (is_defender self) r.
Proof. unfold opponent_index, opponent_action. by destruct (is_defender self). Qed.

(** [analyze_pattern] on a non-empty history, in terms of the slice. *)
Lemma analyze_pattern_nonempty (self : EnhancedTitForTat) (h : list RoundRecord) :
  h <> [] ->
  slice_from (- memory_size self) h <> [] ->
  analyze_pattern self h
  = Returns (Some
      (inject_Z (Z.of_nat (length
         (filter (aggressive_spec (is_defender self))
            (map (opponent_action (is_defender self))
               (slice_from (- memory_size self) h)))))
       / inject_Z (Z.of_nat (length (slice_from (- memory_size self) h))))%Q).
Proof.
  intros Hh Hw. unfold analyze_pattern.
  destruct h as [| r0 h0]; [done |].
  set (w := slice_from (- memory_size self) (r0 :: h0)) in *.
  rewrite length_map.
  destruct (length w) as [| n] eqn:Hn; [by destruct w |].
  rewrite Zsum_ones.
  rewrite (list_filter_iff _ (aggressive_spec (is_defender self)))
    by (intros; apply is_aggressive_spec).
  rewrite (map_ext _ _ (tuple_get_opponent self)).
  reflexivity.
Qed.

(** ** The policies stay in their action domains *)

Section PolicyDomains.
Context {R : RandomModule}.

Lemma PassiveDefender_domain (self : PassiveDefender) h g :
  exists a g', PassiveDefender_make_decision self h g = (Returns a, g')
               /\ defender_action a.
Proof.
  unfold PassiveDefender_make_decision, defender_action.
  destruct (random_random g) as [u g'].
  eexists _, g'. split; [reflexivity |].
  destruct (Qlt_bool u (defense_prob self)); auto.
Qed.

(** The defender's branch that needs no draw: the opponent attacked in the
    most recent record and the rate could be computed. *)
Lemma defender_after_attack (self : EnhancedTitForTat) h rec g :
  is_defender self = true ->
  slice_from (- memory_size self) h <> [] ->
  last h = Some rec ->
  snd (decisions rec) = Attack ->
  EnhancedTitForTat_make_decision self h g = (Returns Defend, g).
Proof.
  intros Hd Hw Hl Ha.
  assert (Hh : h <> []) by (intros ->; discriminate).
  unfold EnhancedTitForTat_make_decision.
  destruct h as [| r0 h0]; [done |].
  rewrite (bind_returns _ _ g _ g)
    by (unfold lift_outcome; rewrite analyze_pattern_nonempty by assumption;
        reflexivity).
  rewrite Hl. rewrite (bind_returns _ _ g rec g) by reflexivity.
  rewrite Hd. unfold opponent_index. rewrite Hd. simpl negb. cbv iota.
  unfold tuple_get. rewrite Ha. reflexivity.
Qed.

Lemma EnhancedTitForTat_domain (self : EnhancedTitForTat) h g :
  0 <= memory_size self ->
  exists a g', EnhancedTitForTat_make_decision self h g = (Returns a, g')
               /\ (if is_defender self then defender_action a
                   else attacker_action a).
Proof.
  intros Hm. unfold defender_action, attacker_action.
  destruct h as [| r0 h0].
  { exists (if is_defender self then Defend else DoNotAttack), g.
    split; [reflexivity |]. destruct (is_defender self); auto. }
  assert (Hh : r0 :: h0 <> []) by discriminate.
  destruct (last (r0 :: h0)) as [rec |] eqn:Hl;
    [| apply last_None in Hl; done].
  unfold EnhancedTitForTat_make_decision.
  rewrite (bind_returns _ _ g _ g)
    by (unfold lift_outcome;
        rewrite analyze_pattern_nonempty
          by (auto using slice_from_nonempty);
        reflexivity).
  rewrite Hl. rewrite (bind_returns _ _ g rec g) by reflexivity.
  unfold mbind, M_bind, lift_outcome, rate_gt, rate_lt, random_below, mret, M_ret.
  destruct (is_defender self).
  - destruct (String.eqb _ Attack); [eauto |].
    destruct (Qlt_bool 0.7 _); [eauto |].
    destruct (random_random g) as [u g'].
    destruct (Qlt_bool u 0.2); eauto.
  - destruct (String.eqb _ DoNotDefend); [eauto |].
    destruct (Qlt_bool _ 0.3); [eauto |].
    destruct (random_random g) as [u g'].
    destruct (Qlt_bool u 0.8); eauto.
Qed.

Lemma defender_policy_domain (p : policy) h g :
  defender_policy p ->
  exists a g', make_decision p h g = (Returns a, g') /\ defender_action a.
Proof.
  destruct p as [d | | t]; simpl; [| done |].
  - intros _. apply PassiveDefender_domain.
  - intros [Hd Hm].
    destruct (EnhancedTitForTat_domain t h g Hm) as (a & g' & He & Ha).
    rewrite Hd in Ha. eauto.
Qed.

Context {L : RandomModuleLaws R}.

(** With a defence probability of at least 1 every draw is below it. *)
Lemma PassiveDefender_saturated (self : PassiveDefender) h g :
  (1 <= defense_prob self)%Q ->
  exists a g', PassiveDefender_make_decision self h g = (Returns a, g')
               /\ a = Defend.
Proof.
  intros Hp. unfold PassiveDefender_make_decision.
  pose proof (random_random_range g) as [_ Hlt].
  destruct (random_random g) as [u g']. simpl in Hlt.
  exists Defend, g'. split; [| reflexivity].
  assert (Hb : Qlt_bool u (defense_prob self) = true).
  { apply Qlt_bool_iff. eapply Qlt_le_trans; eassumption. }
  rewrite Hb. reflexivity.
Qed.

Lemma RandomAttacker_domain h g :
  exists b g', RandomAttacker_make_decision h g = (Returns b, g')
               /\ attacker_action b.
Proof.
  unfold RandomAttacker_make_decision, attacker_action.
  pose proof (random_choice_elem [Attack; DoNotAttack] g ltac:(discriminate))
    as Hin.
  destruct (random_choice [Attack; DoNotAttack] g) as [c g']. simpl in Hin.
  exists c, g'. split; [reflexivity |].
  apply list_elem_of_In in Hin. simpl in Hin. intuition.
Qed.

Lemma attacker_policy_domain (p : policy) h g :
  attacker_policy p ->
  exists b g', make_decision p h g = (Returns b, g') /\ attacker_action b.
Proof.
  destruct p as [d | | t]; simpl; [done | |].
  - intros _. apply RandomAttacker_domain.
  - intros [Hd Hm].
    destruct (EnhancedTitForTat_domain t h g Hm) as (a & g' & He & Ha).
    rewrite Hd in Ha. eauto.
Qed.

(** The policies of the repository, each in its seat, never make a run
    stop: all the requested rounds are played. *)
Lemma run_game_policies_complete (pa pb : policy) (rounds : Z) (g : rng) :
  defender_policy pa -> attacker_policy pb ->
  outcome_of (run_game (make_decision pa) (make_decision pb) rounds
                (NetworkSecurityGame_init, g)) = Returns tt.
Proof.
  intros Hpa Hpb.
  destruct (for_range_valid (make_decision pa) (make_decision pb)
              defender_action attacker_action
              (fun h0 g0 => defender_policy_domain pa h0 g0 Hpa)
              (fun h0 g0 => attacker_policy_domain pb h0 g0 Hpb)
              (Z.to_nat rounds) NetworkSecurityGame_init g 0 0
              (fun a b Ha Hb => proj2 (init_payoff_keys a b) (conj Ha Hb))
              init_scores_defender init_scores_attacker)
    as (recs & Hok & _).
  exact Hok.
Qed.

End PolicyDomains.

(** ** Reproducibility over two sources *)

Section Determinism.
Context (R1 R2 : RandomModule).
Variable sim : @rng R1 -> @rng R2 -> Prop.
Hypothesis sim_same : same_draws R1 R2 sim.

Lemma random_below_agree p g1 g2 :
  sim g1 g2 -> agree sim (@random_below R1 p g1) (@random_below R2 p g2).
Proof.
  intros Hs. unfold random_below, agree.
  destruct (proj1 sim_same g1 g2 Hs) as [Hv Hn].
  destruct (@random_random R1 g1) as [u1 n1].
  destruct (@random_random R2 g2) as [u2 n2].
  simpl in *. subst u2. auto.
Qed.

Lemma PassiveDefender_agree self h g1 g2 :
  sim g1 g2 ->
  agree sim (@PassiveDefender_make_decision R1 self h g1)
            (@PassiveDefender_make_decision R2 self h g2).
Proof.
  intros Hs. unfold PassiveDefender_make_decision, agree.
  destruct (proj1 sim_same g1 g2 Hs) as [Hv Hn].
  destruct (@random_random R1 g1) as [u1 n1].
  destruct (@random_random R2 g2) as [u2 n2].
  simpl in *. subst u2. auto.
Qed.

Lemma RandomAttacker_agree h g1 g2 :
  sim g1 g2 ->
  agree sim (@RandomAttacker_make_decision R1 h g1)
            (@RandomAttacker_make_decision R2 h g2).
Proof.
  intros Hs. unfold RandomAttacker_make_decision, agree.
  destruct (proj2 sim_same [Attack; DoNotAttack] g1 g2 Hs) as [Hv Hn].
  destruct (@random_choice R1 _ g1) as [c1 n1].
  destruct (@random_choice R2 _ g2) as [c2 n2].
  simpl in *. subst c2. auto.
Qed.

Lemma EnhancedTitForTat_agree self h g1 g2 :
  sim g1 g2 ->
  agree sim (@EnhancedTitForTat_make_decision R1 self h g1)
            (@EnhancedTitForTat_make_decision R2 self h g2).
Proof.
  intros Hs. unfold EnhancedTitForTat_make_decision.
  destruct h as [| r0 h0]; [split; [reflexivity | exact Hs] |].
  unfold mbind, M_bind, lift_outcome, mret, M_ret, raise.
  destruct (analyze_pattern self (r0 :: h0)) as [rate | e];
    [| split; [reflexivity | exact Hs]].
  destruct (last (r0 :: h0)) as [rec |]; [| split; [reflexivity | exact Hs]].
  destruct (is_defender self).
  - destruct (String.eqb _ Attack).
    + split; [reflexivity | exact Hs].
    + destruct (rate_gt rate 0.7%Q) as [[] | e];
        try (split; [reflexivity | exact Hs]).
      destruct (random_below_agree 0.2%Q g1 g2 Hs) as [Hv Hn].
      destruct (@random_below R1 0.2%Q g1) as [[b1 | e1] n1];
        destruct (@random_below R2 0.2%Q g2) as [[b2 | e2] n2];
        simpl in *; simplify_eq; split; auto.
  - destruct (String.eqb _ DoNotDefend).
    + split; [reflexivity | exact Hs].
    + destruct (rate_lt rate 0.3%Q) as [[] | e];
        try (split; [reflexivity | exact Hs]).
      destruct (random_below_agree 0.8%Q g1 g2 Hs) as [Hv Hn].
      destruct (@random_below R1 0.8%Q g1) as [[b1 | e1] n1];
        destruct (@random_below R2 0.8%Q g2) as [[b2 | e2] n2];
        simpl in *; simplify_eq; split; auto.
Qed.

Lemma make_decision_agree (p : policy) h g1 g2 :
  sim g1 g2 ->
  agree sim (@make_decision R1 p h g1) (@make_decision R2 p h g2).
Proof.
  destruct p as [d | | t]; simpl.
  - apply PassiveDefender_agree.
  - apply RandomAttacker_agree.
  - apply EnhancedTitForTat_agree.
Qed.

(** The bookkeeping after the decisions does not look at the source. *)
Lemma settle_agree a b s g1 g2 :
  sim g1 g2 ->
  agree_world sim (@settle R1 a b (s, g1)) (@settle R2 a b (s, g2)).
Proof.
  intros Hs.
  unfold settle, mbind, M_bind, payoff_getitem, scores_iadd, history_append,
    agree_world, outcome_of, session_of, generator_of.
  simpl.
  destruct (payoff_matrix s !! (a, b)) as [p |]; [| simpl; auto].
  simpl.
  destruct (scores s !! DefenderRole) as [d |]; [| simpl; auto].
  simpl.
  destruct (<[DefenderRole := d + fst p]> (scores s) !! AttackerRole) as [t |];
    simpl; auto.
Qed.

Variables (sa1 sb1 : @strategy R1) (sa2 sb2 : @strategy R2).
Hypothesis sa_agree : forall h g1 g2, sim g1 g2 ->
  agree sim (sa1 h g1) (sa2 h g2).
Hypothesis sb_agree : forall h g1 g2, sim g1 g2 ->
  agree sim (sb1 h g1) (sb2 h g2).

Lemma play_round_agree s g1 g2 :
  sim g1 g2 ->
  agree_world sim (@play_round R1 sa1 sb1 (s, g1)) (@play_round R2 sa2 sb2 (s, g2)).
Proof.
  intros Hs. rewrite !play_round_unfold.
  destruct (sa_agree (history s) g1 g2 Hs) as [Hva Hna].
  destruct (sa1 (history s) g1) as [oa1 n1], (sa2 (history s) g2) as [oa2 n2].
  simpl in Hva, Hna. subst oa2.
  destruct oa1 as [a | e]; [| unfold agree_world; simpl; auto].
  destruct (sb_agree (history s) n1 n2 Hna) as [Hvb Hnb].
  destruct (sb1 (history s) n1) as [ob1 m1], (sb2 (history s) n2) as [ob2 m2].
  simpl in Hvb, Hnb. subst ob2.
  destruct ob1 as [b | e]; [| unfold agree_world; simpl; auto].
  apply settle_agree, Hnb.
Qed.

Lemma for_range_agree n : forall s g1 g2,
  sim g1 g2 ->
  agree_world sim (for_range n (@play_round R1 sa1 sb1) (s, g1))
                  (for_range n (@play_round R2 sa2 sb2) (s, g2)).
Proof.
  induction n as [| n IH]; intros s g1 g2 Hs.
  - unfold agree_world. simpl. auto.
  - rewrite !for_range_S.
    destruct (play_round_agree s g1 g2 Hs) as (Ho & Hsess & Hg).
    destruct (@play_round R1 sa1 sb1 (s, g1)) as [o1 [s1 n1]].
    destruct (@play_round R2 sa2 sb2 (s, g2)) as [o2 [s2 n2]].
    unfold outcome_of, session_of, generator_of in Ho, Hsess, Hg.
    simpl in Ho, Hsess, Hg. subst o2 s2.
    destruct o1 as [[] | e].
    + apply IH, Hg.
    + unfold agree_world. simpl. auto.
Qed.

End Determinism.

(** * The claims *)

(** C1 (score additivity).  Started on a fresh session, a run of any two
    strategies for [rounds] rounds leaves each role's score equal to the sum
    of that role's payoffs over the records of the history, and a run that
    completes has recorded exactly [rounds] rounds.  On any session that has
    both score entries the run adds to each score the sum of that role's
    payoffs over the records it appends.  With strategies that always return
    Defend and Attack, three rounds complete, every record holds the payoff
    pair (-2, 1), and the scores are -6 and 3. *)
Theorem score_additivity {R : RandomModule} :
  (forall (sa sb : strategy) (rounds : Z) (g : rng),
     let x := run_game sa sb rounds (NetworkSecurityGame_init, g) in
     scores (session_of x) !! DefenderRole
       = Some (Zsum (defender_payoffs (history (session_of x))))
     /\ scores (session_of x) !! AttackerRole
       = Some (Zsum (attacker_payoffs (history (session_of x))))
     /\ (outcome_of x = Returns tt ->
         length (history (session_of x)) = Z.to_nat rounds))
  /\ (forall (sa sb : strategy) (rounds : Z) (s : NetworkSecurityGame) (g : rng)
        (d t : Z),
        scores s !! DefenderRole = Some d ->
        scores s !! AttackerRole = Some t ->
        let x := run_game sa sb rounds (s, g) in
        exists recs : list RoundRecord,
          history (session_of x) = history s ++ recs
          /\ scores (session_of x) !! DefenderRole
             = Some (d + Zsum (defender_payoffs recs))
          /\ scores (session_of x) !! AttackerRole
             = Some (t + Zsum (attacker_payoffs recs))
          /\ (outcome_of x = Returns tt -> length recs = Z.to_nat rounds))
  /\ (forall g : rng,
        let x := run_game (constant_strategy Defend) (constant_strategy Attack) 3
                   (NetworkSecurityGame_init, g) in
        outcome_of x = Returns tt
        /\ map payoffs (history (session_of x)) = [(-2, 1); (-2, 1); (-2, 1)]
        /\ scores (session_of x) !! DefenderRole = Some (-6)
        /\ scores (session_of x) !! AttackerRole = Some 3).
Proof.
  split; [| split].
  - intros sa sb rounds g x.
    destruct (for_range_play_round (Z.to_nat rounds) sa sb
                NetworkSecurityGame_init g 0 0
                init_scores_defender init_scores_attacker)
      as (recs & _ & Hh & Hd & Ht & _ & _ & Hlen & _).
    cbv zeta in *. fold (run_game sa sb rounds) in *. fold x in Hh, Hd, Ht, Hlen.
    simpl in Hh. rewrite Hh.
    rewrite Hd, Ht, !Z.add_0_l. auto.
  - intros sa sb rounds s g d t Hd Ht x.
    destruct (for_range_play_round (Z.to_nat rounds) sa sb s g d t Hd Ht)
      as (recs & _ & Hh & Hsd & Hst & _ & _ & Hlen & _).
    exists recs. auto.
  - intros g. vm_compute. auto.
Qed.

(** A run of the scripted source: a fresh session, [PassiveDefender(0.5)]
    against [RandomAttacker], five rounds. *)
Lemma score_additivity_witness :
  let x := @run_game ScriptedRandom
             (PassiveDefender_make_decision {| defense_prob := 0.5 |})
             RandomAttacker_make_decision 5
             (NetworkSecurityGame_init, [100; 1; 700; 0; 3; 4; 5; 6; 900; 1]) in
  outcome_of x = Returns tt
  /\ length (history (session_of x)) = 5%nat
  /\ scores (session_of x) !! DefenderRole
     = Some (Zsum (defender_payoffs (history (session_of x))))
  /\ scores (session_of x) !! AttackerRole
     = Some (Zsum (attacker_payoffs (history (session_of x)))).
Proof.
  cbv zeta.
  destruct (@score_additivity ScriptedRandom) as [H _].
  specialize (H (PassiveDefender_make_decision {| defense_prob := 0.5 |})
                RandomAttacker_make_decision 5
                [100; 1; 700; 0; 3; 4; 5; 6; 900; 1]).
  cbv zeta in H. destruct H as (Hd & Ht & Hlen).
  assert (Hok : outcome_of
            (@run_game ScriptedRandom
               (PassiveDefender_make_decision {| defense_prob := 0.5 |})
               RandomAttacker_make_decision 5
               (NetworkSecurityGame_init, [100; 1; 700; 0; 3; 4; 5; 6; 900; 1]))
          = Returns tt) by (vm_compute; reflexivity).
  split; [exact Hok |].
  split; [exact (Hlen Hok) |].
  split; [exact Hd | exact Ht].
Defined.

(** C2 (history append invariant).  [play_round] and [run_game] keep every
    record of the history they start from, in place and unchanged, and only
    add records behind them.  A run of [rounds] rounds on a fresh session
    that completes leaves exactly [rounds] records, whose round numbers are
    1, 2, ..., [rounds] in this order; and a run of the repository's
    policies, each in its seat, does complete. *)
Theorem history_append_invariant {R : RandomModule} {L : RandomModuleLaws R}
    (rounds : Z) (g : rng) :
  0 <= rounds ->
  (forall (sa sb : strategy) s g',
     history s `prefix_of` history (session_of (play_round sa sb (s, g'))))
  /\ (forall (sa sb : strategy) n s g',
        history s `prefix_of` history (session_of (run_game sa sb n (s, g'))))
  /\ (forall sa sb : strategy,
        let x := run_game sa sb rounds (NetworkSecurityGame_init, g) in
        outcome_of x = Returns tt ->
        Z.of_nat (length (history (session_of x))) = rounds
        /\ map round (history (session_of x)) = seqZ 1 rounds
        /\ (forall (i : nat) (r : RoundRecord),
              history (session_of x) !! i = Some r -> round r = Z.of_nat i + 1))
  /\ (forall pa pb : policy,
        defender_policy pa -> attacker_policy pb ->
        outcome_of (run_game (make_decision pa) (make_decision pb) rounds
                      (NetworkSecurityGame_init, g)) = Returns tt).
Proof.
  intros Hpos.
  split; [intros sa sb s g'; apply play_round_history_prefix |].
  split; [intros sa sb n s g'; apply for_range_history_prefix |].
  split; [| intros pa pb; apply run_game_policies_complete].
  intros sa sb x Hret.
  destruct (for_range_play_round (Z.to_nat rounds) sa sb
              NetworkSecurityGame_init g 0 0
              init_scores_defender init_scores_attacker)
    as (recs & _ & Hh & _ & _ & Hrd & _ & Hlen & _).
  cbv zeta in *. fold (run_game sa sb rounds) in *. fold x in Hh, Hlen.
  specialize (Hlen Hret). simpl in Hh, Hrd.
  assert (Hseq : map round recs = seqZ 1 rounds).
  { rewrite Hrd, Hlen. f_equal. lia. }
  rewrite Hh.
  split; [lia |].
  split; [exact Hseq |].
  intros i r Hi.
  assert (Hr : map round recs !! i = Some (round r))
    by (rewrite list_lookup_fmap, Hi; reflexivity).
  rewrite Hseq in Hr. apply lookup_seqZ in Hr. lia.
Qed.

(** A run of the scripted source: two [EnhancedTitForTat] policies, six
    rounds. *)
Lemma history_append_invariant_witness :
  map round (history (session_of
    (@run_game ScriptedRandom
       (make_decision (PolicyEnhancedTitForTat
          {| is_defender := true; memory_size := 3;
             role := DefenderRole; opponent_history := [] |}))
       (make_decision (PolicyEnhancedTitForTat
          {| is_defender := false; memory_size := 3;
             role := AttackerRole; opponent_history := [] |}))
       6 (NetworkSecurityGame_init, [100; 1; 700; 0; 3; 4; 5; 6; 900; 1]))))
  = [1; 2; 3; 4; 5; 6].
Proof.
  destruct (@history_append_invariant ScriptedRandom ScriptedRandom_laws 6
              [100; 1; 700; 0; 3; 4; 5; 6; 900; 1] ltac:(lia))
    as (_ & _ & Hrounds & Hcomplete).
  refine (proj1 (proj2 (Hrounds _ _ (Hcomplete _ _ _ _)))).
  - simpl. split; [reflexivity | lia].
  - simpl. split; [reflexivity | lia].
Defined.

(** C3, the claim as stated fails: a defence probability of 3/2 and a memory
    window of -1 are outside the ranges, and both constructors return the
    policy object all the same. *)
Lemma construction_accepts_invalid_configuration :
  PassiveDefender_init (3 # 2) = Returns {| defense_prob := 3 # 2 |}
  /\ (1 < 3 # 2)%Q
  /\ EnhancedTitForTat_init true (-1)
     = Returns {| is_defender := true; memory_size := -1;
                  role := DefenderRole; opponent_history := [] |}
  /\ -1 <= 0.
Proof.
  split; [reflexivity |].
  split; [reflexivity |].
  split; [reflexivity | lia].
Qed.

(** C3 (amended).  Construction validates nothing: for every defence
    probability [PassiveDefender.__init__] returns a policy that stores it
    unchanged, and for every role flag and every memory window
    [EnhancedTitForTat.__init__] returns a policy that stores them unchanged;
    neither constructor raises. *)
Theorem construction_never_rejects :
  (forall p : Q,
     exists d : PassiveDefender,
       PassiveDefender_init p = Returns d /\ defense_prob d = p)
  /\ (forall (b : bool) (m : Z),
        exists t : EnhancedTitForTat,
          EnhancedTitForTat_init b m = Returns t
          /\ is_defender t = b /\ memory_size t = m).
Proof.
  split.
  - intros p. eexists. split; reflexivity.
  - intros b m. eexists. repeat split; reflexivity.
Qed.

(** A negative memory window is accepted by the constructor and surfaces
    later: with window -1 and one record the slice is empty and the division
    raises. *)
Example negative_window_raises :
  @EnhancedTitForTat_make_decision ScriptedRandom
    {| is_defender := true; memory_size := -1;
       role := DefenderRole; opponent_history := [] |}
    [ {| round := 1; decisions := (Defend, Attack); payoffs := (-2, 1) |} ]
    [0]
  = (Raises ZeroDivisionError, [0]).
Proof. reflexivity. Qed.

(** C4, the claim as stated fails: when every choice of the attacker falls
    on Attack (the scripted source with an empty script), ten rounds leave
    the defender with a score of -20, which is negative. *)
Lemma defender_score_can_be_negative :
  let x := @run_game ScriptedRandom
             (PassiveDefender_make_decision {| defense_prob := 1 |})
             RandomAttacker_make_decision 10 (NetworkSecurityGame_init, []) in
  outcome_of x = Returns tt
  /\ scores (session_of x) !! DefenderRole = Some (-20)
  /\ -20 < 0.
Proof. cbv zeta. split; [| split]; [vm_compute; reflexivity .. | lia]. Qed.

(** C4 (amended).  [PassiveDefender] with probability 1 against
    [RandomAttacker], ten rounds on a fresh session, for any lawful random
    source: the run completes with ten records, the defender chooses Defend
    in every round, every payoff pair is (3, 3) or (-2, 1), every running
    total of the defender's payoffs is at least -20, and the defender's final
    score is the total of its payoffs and lies between -20 and 30. *)
Theorem passive_defender_end_to_end {R : RandomModule} {L : RandomModuleLaws R}
    (g : rng) :
  let x := run_game (PassiveDefender_make_decision {| defense_prob := 1 |})
             RandomAttacker_make_decision 10 (NetworkSecurityGame_init, g) in
  let h := history (session_of x) in
  outcome_of x = Returns tt
  /\ length h = 10%nat
  /\ Forall (fun r => fst (decisions r) = Defend
                      /\ (payoffs r = (3, 3) \/ payoffs r = (-2, 1))) h
  /\ (forall k : nat, -20 <= Zsum (take k (defender_payoffs h)))
  /\ scores (session_of x) !! DefenderRole = Some (Zsum (defender_payoffs h))
  /\ -20 <= Zsum (defender_payoffs h) <= 30.
Proof.
  intros x h.
  destruct (for_range_valid
              (PassiveDefender_make_decision {| defense_prob := 1 |})
              RandomAttacker_make_decision
              (fun a => a = Defend) attacker_action
              (fun h0 g0 =>
                 PassiveDefender_saturated {| defense_prob := 1 |} h0 g0
                   (Qle_refl 1))
              RandomAttacker_domain
              10%nat NetworkSecurityGame_init g 0 0
              init_payoff_defend init_scores_defender init_scores_attacker)
    as (recs & Hok & Hh & Hlen & Hall).
  destruct (for_range_play_round 10%nat
              (PassiveDefender_make_decision {| defense_prob := 1 |})
              RandomAttacker_make_decision NetworkSecurityGame_init g 0 0
              init_scores_defender init_scores_attacker)
    as (recs' & _ & Hh' & Hd & _).
  cbv zeta in *.
  change (for_range 10 (play_round
            (PassiveDefender_make_decision {| defense_prob := 1 |})
            RandomAttacker_make_decision) (NetworkSecurityGame_init, g))
    with x in Hok, Hh, Hh', Hd.
  fold h in Hh, Hh'. simpl in Hh, Hh'. subst recs recs'.
  rewrite Z.add_0_l in Hd.
  assert (Hrec : Forall (fun r => fst (decisions r) = Defend
                   /\ (payoffs r = (3, 3) \/ payoffs r = (-2, 1))) h).
  { eapply Forall_impl; [exact Hall |].
    intros [n [a b] p] (Ha & Hb & Hk). simpl in *. subst a.
    split; [reflexivity |].
    destruct Hb as [-> | ->]; vm_compute in Hk; inversion Hk; auto. }
  assert (Hpay : Forall (fun z => -2 <= z <= 3) (defender_payoffs h)).
  { unfold defender_payoffs. apply Forall_fmap.
    eapply Forall_impl; [exact Hrec |].
    intros r [_ [E | E]]; simpl; rewrite E; simpl; lia. }
  assert (Hlenp : length (defender_payoffs h) = 10%nat)
    by (unfold defender_payoffs; rewrite length_map; exact Hlen).
  split; [exact Hok |].
  split; [exact Hlen |].
  split; [exact Hrec |].
  split.
  { intros k.
    pose proof (Zsum_bounds (-2) 3 (take k (defender_payoffs h))
                  (Forall_take _ k _ Hpay)) as Hb.
    rewrite length_take in Hb.
    lia. }
  split; [exact Hd |].
  pose proof (Zsum_bounds (-2) 3 _ Hpay) as Hb. lia.
Qed.

(** The end-to-end run on the scripted source, with a script that mixes
    both attacker actions. *)
Lemma passive_defender_end_to_end_witness :
  let x := @run_game ScriptedRandom
             (PassiveDefender_make_decision {| defense_prob := 1 |})
             RandomAttacker_make_decision 10
             (NetworkSecurityGame_init, [7; 1; 7; 0; 7; 1; 7; 1; 7; 0]) in
  let h := history (session_of x) in
  outcome_of x = Returns tt
  /\ length h = 10%nat
  /\ Forall (fun r => fst (decisions r) = Defend
                      /\ (payoffs r = (3, 3) \/ payoffs r = (-2, 1))) h
  /\ (forall k : nat, -20 <= Zsum (take k (defender_payoffs h)))
  /\ scores (session_of x) !! DefenderRole = Some (Zsum (defender_payoffs h))
  /\ -20 <= Zsum (defender_payoffs h) <= 30.
Proof.
  exact (@passive_defender_end_to_end ScriptedRandom ScriptedRandom_laws
           [7; 1; 7; 0; 7; 1; 7; 1; 7; 0]).
Defined.

(** C5 (threshold determinism).  For a defender with a positive memory
    window and a history whose most recent record has the attacker choosing
    Attack, [EnhancedTitForTat.make_decision] returns Defend for every random
    source and every state of it, and hands the state back untouched: the
    draw of the relaxed branch is not made. *)
Theorem defend_after_attack {R : RandomModule} (self : EnhancedTitForTat)
    (h : list RoundRecord) (rec : RoundRecord) (g : rng) :
  is_defender self = true ->
  0 < memory_size self ->
  last h = Some rec ->
  snd (decisions rec) = Attack ->
  EnhancedTitForTat_make_decision self h g = (Returns Defend, g).
Proof.
  intros Hd Hm Hl Ha.
  eapply defender_after_attack; try eassumption.
  apply slice_from_nonempty; [lia |]. intros ->. discriminate.
Qed.

(** The draw that would relax the defence (0 is below 0.2) is at the head of
    the script and stays there. *)
Lemma defend_after_attack_witness :
  @EnhancedTitForTat_make_decision ScriptedRandom
    {| is_defender := true; memory_size := 3;
       role := DefenderRole; opponent_history := [] |}
    [ {| round := 1; decisions := (Defend, DoNotAttack); payoffs := (3, 3) |};
      {| round := 2; decisions := (Defend, Attack); payoffs := (-2, 1) |} ]
    [0; 0]
  = (Returns Defend, [0; 0]).
Proof.
  refine (@defend_after_attack ScriptedRandom _ _
    {| round := 2; decisions := (Defend, Attack); payoffs := (-2, 1) |}
    [0; 0] _ _ _ _).
  - reflexivity.
  - simpl. lia.
  - reflexivity.
  - reflexivity.
Defined.

(** With the same script and a most recent record without an attack the
    draw is made and the defence relaxed: the branch of C5 is what keeps the
    draw from being consulted. *)
Example relaxed_branch_draws :
  @EnhancedTitForTat_make_decision ScriptedRandom
    {| is_defender := true; memory_size := 3;
       role := DefenderRole; opponent_history := [] |}
    [ {| round := 1; decisions := (Defend, Attack); payoffs := (-2, 1) |};
      {| round := 2; decisions := (Defend, DoNotAttack); payoffs := (3, 3) |} ]
    [0; 0]
  = (Returns DoNotDefend, [0]).
Proof. reflexivity. Qed.

(** C6 (windowing).  For a positive memory window and a non-empty history
    [analyze_pattern] returns the number of aggressive opponent actions among
    the last [min(memory_size, |history|)] records divided by the number of
    these records; with a window of 3 and a history of one or two records
    the window is the whole history and the divisor is its length. *)
Theorem aggressive_rate_window (self : EnhancedTitForTat) (h : list RoundRecord) :
  0 < memory_size self ->
  h <> [] ->
  analyze_pattern self h
    = Returns (Some (aggressiveRate_spec (is_defender self) (memory_size self) h))
  /\ length (window_spec (memory_size self) h)
     = Z.to_nat (Z.min (memory_size self) (Z.of_nat (length h)))
  /\ (memory_size self = 3 -> (length h <= 2)%nat ->
      window_spec (memory_size self) h = h
      /\ analyze_pattern self h
         = Returns (Some
             (inject_Z (Z.of_nat (length
                (filter (aggressive_spec (is_defender self))
                   (map (opponent_action (is_defender self)) h))))
              / inject_Z (Z.of_nat (length h)))%Q)).
Proof.
  intros Hm Hh.
  assert (Hrate : analyze_pattern self h
    = Returns (Some (aggressiveRate_spec (is_defender self) (memory_size self) h))).
  { rewrite analyze_pattern_nonempty;
      [| exact Hh | apply slice_from_nonempty; [lia | exact Hh]].
    unfold aggressiveRate_spec, window_spec.
    rewrite slice_from_positive_window by exact Hm. reflexivity. }
  split; [exact Hrate |].
  split; [apply window_spec_length; exact Hm |].
  intros H3 Hlen.
  assert (Hw : window_spec (memory_size self) h = h).
  { unfold window_spec. rewrite H3.
    replace (length h - Z.to_nat (Z.min 3 (Z.of_nat (length h))))%nat
      with 0%nat by lia.
    reflexivity. }
  split; [exact Hw |].
  rewrite Hrate. unfold aggressiveRate_spec. rewrite Hw. reflexivity.
Qed.

(** Window 3, two records, the opponent attacked in one of them: the rate
    is one half, not one third. *)
Lemma aggressive_rate_window_witness :
  analyze_pattern
    {| is_defender := true; memory_size := 3;
       role := DefenderRole; opponent_history := [] |}
    [ {| round := 1; decisions := (Defend, Attack); payoffs := (-2, 1) |};
      {| round := 2; decisions := (Defend, DoNotAttack); payoffs := (3, 3) |} ]
  = Returns (Some (1 # 2)%Q).
Proof.
  refine (proj1 (aggressive_rate_window
    {| is_defender := true; memory_size := 3;
       role := DefenderRole; opponent_history := [] |}
    [ {| round := 1; decisions := (Defend, Attack); payoffs := (-2, 1) |};
      {| round := 2; decisions := (Defend, DoNotAttack); payoffs := (3, 3) |} ]
    _ _)).
  - simpl. lia.
  - discriminate.
Defined.

(** C7 (cooperative first move).  On the empty history
    [EnhancedTitForTat.make_decision] returns Defend for a defender and
    DoNotAttack for an attacker, for every memory window, every random source
    and every state of it, and it hands the state of the source back
    untouched: nothing is drawn. *)
Theorem cooperative_first_move {R : RandomModule} (self : EnhancedTitForTat)
    (g : rng) :
  EnhancedTitForTat_make_decision self [] g
    = (Returns (if is_defender self then Defend else DoNotAttack), g)
  /\ (forall (m : Z) (t : EnhancedTitForTat),
        EnhancedTitForTat_init true m = Returns t ->
        EnhancedTitForTat_make_decision t [] g = (Returns Defend, g))
  /\ (forall (m : Z) (t : EnhancedTitForTat),
        EnhancedTitForTat_init false m = Returns t ->
        EnhancedTitForTat_make_decision t [] g = (Returns DoNotAttack, g)).
Proof.
  split; [reflexivity |].
  split; intros m t Ht; inversion Ht; reflexivity.
Qed.

Lemma cooperative_first_move_witness :
  @EnhancedTitForTat_make_decision ScriptedRandom
    {| is_defender := false; memory_size := 3;
       role := AttackerRole; opponent_history := [] |} [] [999; 1]
  = (Returns DoNotAttack, [999; 1]).
Proof.
  refine (proj2 (proj2 (@cooperative_first_move ScriptedRandom
    {| is_defender := false; memory_size := 3;
       role := AttackerRole; opponent_history := [] |} [999; 1])) 3 _ _).
  reflexivity.
Defined.

(** C8 (payoff completeness and fatal lookup failure).  The table of a new
    session has a payoff pair exactly for the four pairs of a defender action
    and an attacker action, with the values of the source, and has four keys
    in all.  On a session holding this table the subscript
    [self.payoff_matrix[key]] returns, with these values and without touching
    the state, exactly for the four pairs, and raises [KeyError] exactly for
    every other key; a round whose strategies return one of the four pairs
    completes (given both score entries) and records the payoff pair of the
    table.  When the strategies return a pair outside these four, the round
    raises [KeyError]; a run of at least one round raises it as well and
    stops there, and no record, with whatever payoff, is added to the
    history. *)
Theorem payoff_lookup_complete {R : RandomModule} :
  (forall a b : string,
     is_Some (payoff_matrix NetworkSecurityGame_init !! (a, b)) <-> valid_pair a b)
  /\ payoff_matrix NetworkSecurityGame_init !! (Defend, DoNotAttack) = Some (3, 3)
  /\ payoff_matrix NetworkSecurityGame_init !! (Defend, Attack) = Some (-2, 1)
  /\ payoff_matrix NetworkSecurityGame_init !! (DoNotDefend, Attack) = Some (-8, 8)
  /\ payoff_matrix NetworkSecurityGame_init !! (DoNotDefend, DoNotAttack) = Some (4, 4)
  /\ size (payoff_matrix NetworkSecurityGame_init) = 4%nat
  /\ (forall (s : NetworkSecurityGame) (g : rng),
        payoff_matrix s = payoff_matrix NetworkSecurityGame_init ->
        payoff_getitem (Defend, DoNotAttack) (s, g) = (Returns (3, 3), (s, g))
        /\ payoff_getitem (Defend, Attack) (s, g) = (Returns (-2, 1), (s, g))
        /\ payoff_getitem (DoNotDefend, Attack) (s, g) = (Returns (-8, 8), (s, g))
        /\ payoff_getitem (DoNotDefend, DoNotAttack) (s, g)
           = (Returns (4, 4), (s, g)))
  /\ (forall (s : NetworkSecurityGame) (g : rng) (a b : string),
        payoff_matrix s = payoff_matrix NetworkSecurityGame_init ->
        (valid_pair a b <->
           exists p : Z * Z, payoff_getitem (a, b) (s, g) = (Returns p, (s, g)))
        /\ (~ valid_pair a b <->
            payoff_getitem (a, b) (s, g) = (Raises KeyError, (s, g))))
  /\ (forall (sa sb : strategy) (s : NetworkSecurityGame) (g g1 g2 : rng)
        (a b : string) (d t : Z),
        payoff_matrix s = payoff_matrix NetworkSecurityGame_init ->
        sa (history s) g = (Returns a, g1) ->
        sb (history s) g1 = (Returns b, g2) ->
        valid_pair a b ->
        scores s !! DefenderRole = Some d ->
        scores s !! AttackerRole = Some t ->
        exists p : Z * Z,
          payoff_matrix NetworkSecurityGame_init !! (a, b) = Some p
          /\ play_round sa sb (s, g)
             = (Returns tt, (session_after_round s a b p d t, g2)))
  /\ (forall (sa sb : strategy) (s : NetworkSecurityGame) (g g1 g2 : rng)
        (a b : string) (rounds : Z),
        payoff_matrix s = payoff_matrix NetworkSecurityGame_init ->
        sa (history s) g = (Returns a, g1) ->
        sb (history s) g1 = (Returns b, g2) ->
        ~ valid_pair a b ->
        0 < rounds ->
        outcome_of (play_round sa sb (s, g)) = Raises KeyError
        /\ outcome_of (run_game sa sb rounds (s, g)) = Raises KeyError
        /\ history (session_of (run_game sa sb rounds (s, g))) = history s).
Proof.
  split; [exact init_payoff_keys |].
  do 4 (split; [reflexivity |]).
  split; [vm_compute; reflexivity |].
  split.
  { intros s g Hpm. unfold payoff_getitem. simpl. rewrite Hpm.
    repeat split; reflexivity. }
  split.
  { intros s g a b Hpm. unfold payoff_getitem. simpl. rewrite Hpm.
    destruct (payoff_matrix NetworkSecurityGame_init !! (a, b)) as [p |] eqn:Hk.
    - assert (Hv : valid_pair a b) by (apply init_payoff_keys; eauto).
      split; split.
      + intros _. exists p. reflexivity.
      + intros _. exact Hv.
      + intros Hn. contradiction.
      + discriminate.
    - assert (Hn : ~ valid_pair a b).
      { intros Hv. apply init_payoff_keys in Hv. destruct Hv as [p Hp].
        congruence. }
      split; split.
      + intros Hv. contradiction.
      + intros [p Hp]. discriminate.
      + intros _. reflexivity.
      + intros _. exact Hn. }
  split.
  { intros sa sb s g g1 g2 a b d t Hpm Ha Hb Hv Hd Ht.
    destruct (proj2 (init_payoff_keys a b) Hv) as [p Hk].
    exists p. split; [exact Hk |].
    apply (play_round_returns sa sb s g a g1 b g2 p d t Ha Hb); auto.
    rewrite Hpm. exact Hk. }
  intros sa sb s g g1 g2 a b rounds Hpm Ha Hb Hn Hpos.
  assert (Hk : payoff_matrix s !! (a, b) = None)
    by (rewrite Hpm; apply init_payoff_missing, Hn).
  pose proof (play_round_KeyError sa sb s g a g1 b g2 Ha Hb Hk) as Hr.
  assert (Hrun : run_game sa sb rounds (s, g) = (Raises KeyError, (s, g2))).
  { unfold run_game.
    destruct (Z.to_nat rounds) as [| n] eqn:En; [lia |].
    apply for_range_raises, Hr. }
  rewrite Hr, Hrun. auto.
Qed.

(** On a fresh session the subscript returns (-2, 1) for (Defend, Attack);
    and with an attacker strategy that answers outside its domain, three
    rounds requested, the run stops with [KeyError] and an empty history. *)
Lemma payoff_lookup_complete_witness :
  let x := @run_game ScriptedRandom (constant_strategy Defend)
             (constant_strategy "retreat") 3 (NetworkSecurityGame_init, [4; 2]) in
  @payoff_getitem ScriptedRandom (Defend, Attack) (NetworkSecurityGame_init, [4; 2])
    = (Returns (-2, 1), (NetworkSecurityGame_init, [4; 2]))
  /\ outcome_of x = Raises KeyError /\ history (session_of x) = [].
Proof.
  cbv zeta.
  destruct (@payoff_lookup_complete ScriptedRandom)
    as (_ & _ & _ & _ & _ & _ & Hvalues & _ & _ & Hfatal).
  split.
  { exact (proj1 (proj2 (Hvalues NetworkSecurityGame_init [4; 2] eq_refl))). }
  refine (proj2 (Hfatal (constant_strategy Defend) (constant_strategy "retreat")
    NetworkSecurityGame_init [4; 2] [4; 2] [4; 2] Defend "retreat" 3
    _ _ _ _ _)).
  - reflexivity.
  - reflexivity.
  - reflexivity.
  - intros [_ [E | E]]; discriminate E.
  - lia.
Defined.

(** C9 (reproducibility).  Two runs of [run_game] with the same two policies
    and the same number of rounds, from the same session, over random sources
    that are in states handing out the same values (one source in one state
    being the plain case), end with the same outcome and the same session,
    hence the same history and the same scores, and leave the sources in
    states that again hand out the same values. *)
Theorem run_game_reproducible (R1 R2 : RandomModule)
    (sim : @rng R1 -> @rng R2 -> Prop) (pa pb : policy) (rounds : Z)
    (s : NetworkSecurityGame) (g1 : @rng R1) (g2 : @rng R2) :
  same_draws R1 R2 sim ->
  sim g1 g2 ->
  let x1 := @run_game R1 (make_decision pa) (make_decision pb) rounds (s, g1) in
  let x2 := @run_game R2 (make_decision pa) (make_decision pb) rounds (s, g2) in
  outcome_of x1 = outcome_of x2
  /\ history (session_of x1) = history (session_of x2)
  /\ scores (session_of x1) = scores (session_of x2)
  /\ sim (generator_of x1) (generator_of x2).
Proof.
  intros Hsame Hs x1 x2.
  destruct (for_range_agree R1 R2 sim
              (make_decision pa) (make_decision pb)
              (make_decision pa) (make_decision pb)
              (make_decision_agree R1 R2 sim Hsame pa)
              (make_decision_agree R1 R2 sim Hsame pb)
              (Z.to_nat rounds) s g1 g2 Hs) as (Ho & Hsess & Hg).
  fold (@run_game R1 (make_decision pa) (make_decision pb) rounds) in Ho, Hsess, Hg.
  fold (@run_game R2 (make_decision pa) (make_decision pb) rounds) in Ho, Hsess, Hg.
  fold x1 in Ho, Hsess, Hg. fold x2 in Ho, Hsess, Hg.
  rewrite Hsess. auto.
Qed.

(** One source, one state, run twice: [EnhancedTitForTat] against
    [RandomAttacker] for six rounds on the scripted source. *)
Lemma run_game_reproducible_witness :
  let pa := PolicyEnhancedTitForTat
              {| is_defender := true; memory_size := 3;
                 role := DefenderRole; opponent_history := [] |} in
  let pb := PolicyRandomAttacker in
  let g := [100; 1; 700; 0; 3; 4; 5; 6; 900; 1] in
  let x1 := @run_game ScriptedRandom (make_decision pa) (make_decision pb) 6
              (NetworkSecurityGame_init, g) in
  let x2 := @run_game ScriptedRandom (make_decision pa) (make_decision pb) 6
              (NetworkSecurityGame_init, g) in
  outcome_of x1 = outcome_of x2
  /\ history (session_of x1) = history (session_of x2)
  /\ scores (session_of x1) = scores (session_of x2)
  /\ generator_of x1 = generator_of x2.
Proof.
  cbv zeta.
  refine (run_game_reproducible ScriptedRandom ScriptedRandom eq
            _ _ 6 NetworkSecurityGame_init _ _ _ _).
  - split.
    + intros g1 g2 ->. auto.
    + intros l g1 g2 ->. auto.
  - reflexivity.
Defined.

(** C10 (no partial update).  When both strategies return and the pair of
    their actions is not a key of the payoff table, [play_round] raises
    [KeyError] and the session it leaves is the session it started from:
    same history, same scores.  Both strategies have been called by then
    (the random source is in the state the second one left). *)
Theorem failed_lookup_leaves_session {R : RandomModule} (sa sb : strategy)
    (s : NetworkSecurityGame) (g g1 g2 : rng) (a b : string) :
  sa (history s) g = (Returns a, g1) ->
  sb (history s) g1 = (Returns b, g2) ->
  payoff_matrix s !! (a, b) = None ->
  outcome_of (play_round sa sb (s, g)) = Raises KeyError
  /\ session_of (play_round sa sb (s, g)) = s
  /\ history (session_of (play_round sa sb (s, g))) = history s
  /\ scores (session_of (play_round sa sb (s, g))) = scores s
  /\ generator_of (play_round sa sb (s, g)) = g2.
Proof.
  intros Ha Hb Hk.
  rewrite (play_round_KeyError sa sb s g a g1 b g2 Ha Hb Hk).
  repeat split; reflexivity.
Qed.

(** A session with one completed round, then a round whose attacker
    answers outside its domain: the session is left as it was. *)
Lemma failed_lookup_leaves_session_witness :
  let s := {| payoff_matrix := payoff_matrix NetworkSecurityGame_init;
              history := [ {| round := 1; decisions := (Defend, Attack);
                              payoffs := (-2, 1) |} ];
              scores := <[DefenderRole := -2]> (<[AttackerRole := 1]> ∅) |} in
  session_of (@play_round ScriptedRandom
                (PassiveDefender_make_decision {| defense_prob := 0.5 |})
                (constant_strategy "retreat") (s, [100; 7]))
  = s.
Proof.
  cbv zeta.
  refine (proj1 (proj2 (@failed_lookup_leaves_session ScriptedRandom
    (PassiveDefender_make_decision {| defense_prob := 0.5 |})
    (constant_strategy "retreat") _ [100; 7] [7] [7] Defend "retreat" _ _ _))).
  - reflexivity.
  - reflexivity.
  - reflexivity.
Defined.

(** * Further properties of the engine, the policies and their callers *)

(** ** Loops and runs: composition, partial progress, what stays fixed *)

Lemma for_range_add {S} (m n : nat) (body : M S unit) s :
  for_range (m + n) body s = (for_range m body ≫= fun _ => for_range n body) s.
Proof.
  revert s. induction m as [| m IH]; intros s; [reflexivity |].
  change (Datatypes.S m + n)%nat with (Datatypes.S (m + n)).
  rewrite for_range_S. unfold mbind at 1. unfold M_bind at 1.
  rewrite for_range_S.
  destruct (body s) as [[[] | e] s1]; [| reflexivity].
  rewrite IH. reflexivity.
Qed.

Lemma for_range_one {S} (body : M S unit) s : for_range 1 body s = body s.
Proof.
  rewrite for_range_S. destruct (body s) as [[[] | e] s1]; reflexivity.
Qed.

(** A loop that raises has completed some iterations before, and then the
    body raised. *)
Lemma for_range_raises_inv {S} (n : nat) (body : M S unit) : forall s e s',
  for_range n body s = (Raises e, s') ->
  exists (k : nat) s'',
    (k < n)%nat
    /\ for_range k body s = (Returns tt, s'')
    /\ body s'' = (Raises e, s').
Proof.
  induction n as [| n IH]; intros s e s' H; [discriminate |].
  rewrite for_range_S in H.
  destruct (body s) as [[[] | e1] s1] eqn:Hb.
  - destruct (IH s1 e s' H) as (k & s'' & Hk & Hrun & Hraise).
    exists (Datatypes.S k), s''. split; [lia |]. split; [| exact Hraise].
    rewrite for_range_S, Hb. exact Hrun.
  - inversion H; subst. exists 0%nat, s. split; [lia |]. split; [reflexivity | exact Hb].
Qed.

Section RunAlgebra.
Context {R : RandomModule}.

(** The run keeps both score entries. *)
Lemma run_game_keeps_score_entries (sa sb : strategy) (rounds : Z) s g :
  is_Some (scores s !! DefenderRole) ->
  is_Some (scores s !! AttackerRole) ->
  is_Some (scores (session_of (run_game sa sb rounds (s, g))) !! DefenderRole)
  /\ is_Some (scores (session_of (run_game sa sb rounds (s, g))) !! AttackerRole).
Proof.
  intros [d Hd] [t Ht].
  destruct (for_range_play_round (Z.to_nat rounds) sa sb s g d t Hd Ht)
    as (recs & _ & _ & Hsd & Hst & _).
  cbv zeta in *. unfold run_game. rewrite Hsd, Hst. split; eexists; reflexivity.
Qed.

(** One round on any session leaves the payoff table and the set of score
    keys as they were, and touches no score but those of the two roles. *)
Lemma play_round_frame (sa sb : strategy) s g :
  let s' := session_of (play_round sa sb (s, g)) in
  payoff_matrix s' = payoff_matrix s
  /\ dom (scores s') = dom (scores s)
  /\ (forall k, k <> DefenderRole -> k <> AttackerRole ->
        scores s' !! k = scores s !! k).
Proof.
  cbv zeta. rewrite play_round_unfold.
  destruct (sa (history s) g) as [[a | e] g1]; [| by auto].
  destruct (sb (history s) g1) as [[b | e] g2]; [| by auto].
  unfold settle, mbind, M_bind, payoff_getitem, scores_iadd, history_append,
    session_of.
  simpl.
  destruct (payoff_matrix s !! (a, b)) as [p |]; [| by auto]. simpl.
  destruct (scores s !! DefenderRole) as [d |] eqn:Hd; [| by auto]. simpl.
  destruct (<[DefenderRole := d + fst p]> (scores s) !! AttackerRole)
    as [t |] eqn:Ht; simpl.
  - split; [reflexivity |]. split.
    + rewrite (dom_insert_lookup_L _ AttackerRole) by eauto.
      apply dom_insert_lookup_L. eauto.
    + intros k Hk1 Hk2. by rewrite !lookup_insert_ne.
  - split; [reflexivity |]. split.
    + apply dom_insert_lookup_L. eauto.
    + intros k Hk1 Hk2. by rewrite lookup_insert_ne.
Qed.

Lemma for_range_frame (sa sb : strategy) n : forall s g,
  let s' := session_of (for_range n (play_round sa sb) (s, g)) in
  payoff_matrix s' = payoff_matrix s
  /\ dom (scores s') = dom (scores s)
  /\ (forall k, k <> DefenderRole -> k <> AttackerRole ->
        scores s' !! k = scores s !! k).
Proof.
  induction n as [| n IH]; intros s g; [by auto |].
  cbv zeta. rewrite for_range_S.
  pose proof (play_round_frame sa sb s g) as Hf. cbv zeta in Hf.
  destruct (play_round sa sb (s, g)) as [[[] | e] [s1 g1]];
    unfold session_of in Hf; simpl in Hf; [| exact Hf].
  destruct Hf as (Hp & Hdom & Hk).
  destruct (IH s1 g1) as (Hp' & Hdom' & Hk').
  split; [congruence |]. split; [congruence |].
  intros k Hk1 Hk2. rewrite Hk', Hk by assumption. reflexivity.
Qed.

(** On a session with both score entries a round that raises leaves the
    session as it was. *)
Lemma play_round_raises_same_session (sa sb : strategy) s g e s' g' :
  is_Some (scores s !! DefenderRole) ->
  is_Some (scores s !! AttackerRole) ->
  play_round sa sb (s, g) = (Raises e, (s', g')) -> s' = s.
Proof.
  intros [d Hd] [t Ht] H.
  destruct (play_round_cases sa sb s g d t Hd Ht)
    as [(e0 & g0 & Hr) | (a & b & p & g0 & Hk & Hr)];
    rewrite Hr in H; [by inversion H | discriminate].
Qed.

End RunAlgebra.

(** X1 (runs compose).  A run of [m + n] rounds is a run of [m] rounds
    followed, when it completes, by a run of [n] rounds on the session and
    the random source it left; a run of one round is [play_round]; a run of
    no or of a negative number of rounds returns at once and leaves
    everything as it was. *)
Theorem run_game_compose {R : RandomModule} (sa sb : strategy) (m n : Z)
    (w : world) :
  0 <= m -> 0 <= n ->
  run_game sa sb (m + n) w
    = (run_game sa sb m ≫= fun _ => run_game sa sb n) w
  /\ run_game sa sb 1 w = play_round sa sb w
  /\ (forall k : Z, k <= 0 -> run_game sa sb k w = (Returns tt, w)).
Proof.
  intros Hm Hn. split; [| split].
  - unfold run_game. rewrite Z2Nat.inj_add by assumption. apply for_range_add.
  - unfold run_game. apply for_range_one.
  - intros k Hk. unfold run_game.
    replace (Z.to_nat k) with 0%nat by lia. reflexivity.
Qed.

Lemma run_game_compose_witness :
  @run_game ScriptedRandom
    (PassiveDefender_make_decision {| defense_prob := 0.5 |})
    RandomAttacker_make_decision (2 + 3)
    (NetworkSecurityGame_init, [100; 1; 700; 0; 3; 4; 5; 6; 900; 1])
  = (@run_game ScriptedRandom
       (PassiveDefender_make_decision {| defense_prob := 0.5 |})
       RandomAttacker_make_decision 2
     ≫= fun _ =>
     @run_game ScriptedRandom
       (PassiveDefender_make_decision {| defense_prob := 0.5 |})
       RandomAttacker_make_decision 3)
    (NetworkSecurityGame_init, [100; 1; 700; 0; 3; 4; 5; 6; 900; 1]).
Proof.
  refine (proj1 (@run_game_compose ScriptedRandom _ _ 2 3 _ _ _)); lia.
Defined.

(** X2 (a round is all or nothing).  On a session that has both score
    entries, a round that raises, for whatever reason (a strategy raised or
    the joint action is not a key), leaves the session exactly as it was;
    a round that returns has appended exactly one record. *)
Theorem play_round_all_or_nothing {R : RandomModule} (sa sb : strategy)
    (s : NetworkSecurityGame) (g : rng) :
  is_Some (scores s !! DefenderRole) ->
  is_Some (scores s !! AttackerRole) ->
  (forall e s' g', play_round sa sb (s, g) = (Raises e, (s', g')) -> s' = s)
  /\ (forall s' g', play_round sa sb (s, g) = (Returns tt, (s', g')) ->
        length (history s') = Datatypes.S (length (history s))).
Proof.
  intros Hd Ht. split.
  - intros e s' g'. by apply play_round_raises_same_session.
  - destruct Hd as [d Hd], Ht as [t Ht].
    destruct (play_round_cases sa sb s g d t Hd Ht)
      as [(e0 & g0 & Hr) | (a & b & p & g0 & Hk & Hr)]; rewrite Hr;
      intros s' g' H; [discriminate |].
    inversion H; subst. simpl. rewrite length_app. simpl. lia.
Qed.


(** A strategy that raises, after a defender that returns. *)
Lemma play_round_all_or_nothing_witness :
  session_of (@play_round ScriptedRandom
                (PassiveDefender_make_decision {| defense_prob := 0.5 |})
                (fun _ => raise TypeError)
                (NetworkSecurityGame_init, [100; 7]))
  = NetworkSecurityGame_init.
Proof.
  refine (proj1 (@play_round_all_or_nothing ScriptedRandom
                   (PassiveDefender_make_decision {| defense_prob := 0.5 |})
                   (fun _ => raise TypeError)
                   NetworkSecurityGame_init [100; 7] _ _)
            TypeError _ [7] _).
  - eexists; reflexivity.
  - eexists; reflexivity.
  - reflexivity.
Defined.

(** X3 (a failed run keeps the completed rounds).  When a run on a session
    that has both score entries raises, some number [k] of rounds, less than
    the number requested, completed before; the session that is left is
    exactly the one those [k] rounds produced, and it is on this session
    that the next round raised: nothing is rolled back and nothing of the
    failing round is kept. *)
Theorem run_game_failure_keeps_progress {R : RandomModule} (sa sb : strategy)
    (rounds : Z) (s s' : NetworkSecurityGame) (g g' : rng) (e : exn) :
  is_Some (scores s !! DefenderRole) ->
  is_Some (scores s !! AttackerRole) ->
  run_game sa sb rounds (s, g) = (Raises e, (s', g')) ->
  exists (k : Z) (gk : rng),
    0 <= k < rounds
    /\ run_game sa sb k (s, g) = (Returns tt, (s', gk))
    /\ play_round sa sb (s', gk) = (Raises e, (s', g'))
    /\ Z.of_nat (length (history s')) = Z.of_nat (length (history s)) + k.
Proof.
  intros Hd Ht Hrun. unfold run_game in Hrun.
  destruct (for_range_raises_inv _ _ _ _ _ Hrun) as (k & [sk gk] & Hk & Hdone & Hraise).
  assert (Hrunk : run_game sa sb (Z.of_nat k) (s, g) = (Returns tt, (sk, gk)))
    by (unfold run_game; rewrite Nat2Z.id; exact Hdone).
  destruct (run_game_keeps_score_entries sa sb (Z.of_nat k) s g Hd Ht) as [Hd' Ht'].
  rewrite Hrunk in Hd', Ht'. unfold session_of in Hd', Ht'. simpl in Hd', Ht'.
  assert (Hsame : s' = sk).
  { exact (play_round_raises_same_session sa sb sk gk e s' g' Hd' Ht' Hraise). }
  subst sk.
  exists (Z.of_nat k), gk. split; [lia |]. split; [exact Hrunk |].
  split; [exact Hraise |].
  destruct Hd as [d Hd], Ht as [t Ht].
  destruct (for_range_play_round k sa sb s g d t Hd Ht)
    as (recs & _ & Hh & _ & _ & _ & _ & Hlen & _).
  cbv zeta in *. rewrite Hdone in Hh, Hlen.
  unfold session_of, outcome_of in Hh, Hlen. simpl in Hh, Hlen.
  rewrite Hh, length_app, (Hlen eq_refl). lia.
Qed.

(** A defender with window -1 makes the second round raise; six rounds
    were requested, one is kept. *)
Lemma run_game_failure_keeps_progress_witness :
  let sa := @EnhancedTitForTat_make_decision ScriptedRandom
              {| is_defender := true; memory_size := -1;
                 role := DefenderRole; opponent_history := [] |} in
  let sb := @RandomAttacker_make_decision ScriptedRandom in
  let x := run_game sa sb 6 (NetworkSecurityGame_init, [3; 1; 4]) in
  exists (k : Z) (gk : list Z),
    0 <= k < 6
    /\ run_game sa sb k (NetworkSecurityGame_init, [3; 1; 4])
       = (Returns tt, (session_of x, gk))
    /\ play_round sa sb (session_of x, gk)
       = (Raises ZeroDivisionError, (session_of x, generator_of x))
    /\ Z.of_nat (length (history (session_of x))) = 0 + k.
Proof.
  cbv zeta.
  refine (@run_game_failure_keeps_progress ScriptedRandom _ _ 6
            NetworkSecurityGame_init _ [3; 1; 4] _ ZeroDivisionError _ _ _).
  - eexists; reflexivity.
  - eexists; reflexivity.
  - vm_compute. reflexivity.
Defined.

(** X4 (what a run never touches).  Whatever the strategies do and however
    the run ends, [run_game] leaves the payoff table as it was, adds no key
    to and removes no key from the scores, and changes no score except those
    of the two roles. *)
Theorem run_game_frame {R : RandomModule} (sa sb : strategy) (rounds : Z)
    (s : NetworkSecurityGame) (g : rng) :
  payoff_matrix (session_of (run_game sa sb rounds (s, g))) = payoff_matrix s
  /\ dom (scores (session_of (run_game sa sb rounds (s, g)))) = dom (scores s)
  /\ (forall k : string, k <> DefenderRole -> k <> AttackerRole ->
        scores (session_of (run_game sa sb rounds (s, g))) !! k = scores s !! k).
Proof. apply for_range_frame. Qed.

(** ** What the payoff table implies for the scores *)

Lemma init_payoff_range (k : string * string) (p : Z * Z) :
  payoff_matrix NetworkSecurityGame_init !! k = Some p ->
  -8 <= fst p <= 4 /\ 1 <= snd p <= 8 /\ fst p <= snd p.
Proof.
  destruct k as [a b]. intros Hk.
  assert (Hv : valid_pair a b) by (apply init_payoff_keys; eauto).
  destruct Hv as [[-> | ->] [-> | ->]];
    vm_compute in Hk; inversion Hk; subst; simpl; lia.
Qed.

Lemma table_records_bounds (recs : list RoundRecord) :
  Forall (fun r => payoff_matrix NetworkSecurityGame_init !! decisions r
                   = Some (payoffs r)) recs ->
  -8 * Z.of_nat (length recs) <= Zsum (defender_payoffs recs)
    <= 4 * Z.of_nat (length recs)
  /\ Z.of_nat (length recs) <= Zsum (attacker_payoffs recs)
    <= 8 * Z.of_nat (length recs)
  /\ Zsum (defender_payoffs recs) <= Zsum (attacker_payoffs recs).
Proof.
  induction 1 as [| r recs Hr _ IH]; simpl; [lia |].
  apply init_payoff_range in Hr. lia.
Qed.

(** X5 (score bounds).  After any run on a fresh session, completed or not,
    with [n] the number of recorded rounds: the defender's score lies
    between [-8 n] and [4 n], the attacker's score between [n] and [8 n]
    (every recorded round earns the attacker at least 1), and the defender's
    score never exceeds the attacker's. *)
Theorem score_bounds {R : RandomModule} (sa sb : strategy) (rounds : Z)
    (g : rng) :
  let x := run_game sa sb rounds (NetworkSecurityGame_init, g) in
  let n := Z.of_nat (length (history (session_of x))) in
  exists d a : Z,
    scores (session_of x) !! DefenderRole = Some d
    /\ scores (session_of x) !! AttackerRole = Some a
    /\ -8 * n <= d <= 4 * n
    /\ n <= a <= 8 * n
    /\ d <= a
    /\ n <= Z.max 0 rounds.
Proof.
  intros x n.
  destruct (for_range_play_round (Z.to_nat rounds) sa sb
              NetworkSecurityGame_init g 0 0
              init_scores_defender init_scores_attacker)
    as (recs & _ & Hh & Hd & Ht & _ & Hle & _ & Hall).
  cbv zeta in *. fold (run_game sa sb rounds) in *. fold x in Hh, Hd, Ht.
  simpl in Hh. subst n. rewrite Hh.
  destruct (table_records_bounds recs Hall) as (Hbd & Hba & Hda).
  exists (0 + Zsum (defender_payoffs recs)), (0 + Zsum (attacker_payoffs recs)).
  split; [exact Hd |]. split; [exact Ht |]. lia.
Qed.

(** ** [EnhancedTitForTat]: what the decision depends on *)

Lemma window_spec_nonempty (m : Z) (h : list RoundRecord) :
  0 < m -> h <> [] -> window_spec m h <> [].
Proof.
  intros Hm Hh. unfold window_spec.
  rewrite <- slice_from_positive_window by exact Hm.
  apply slice_from_nonempty; [lia | exact Hh].
Qed.

Lemma window_spec_idem (m : Z) (h : list RoundRecord) :
  0 < m -> slice_from (- m) (window_spec m h) = window_spec m h.
Proof.
  intros Hm. rewrite slice_from_positive_window by exact Hm.
  rewrite window_spec_length by exact Hm.
  replace (_ - _)%nat with 0%nat by lia. reflexivity.
Qed.

Lemma last_drop_lt {A} (k : nat) (l : list A) :
  (k < length l)%nat -> last (drop k l) = last l.
Proof.
  intros Hk. rewrite !last_lookup, lookup_drop, length_drop.
  f_equal. lia.
Qed.

Lemma window_spec_last (m : Z) (h : list RoundRecord) :
  0 < m -> h <> [] -> last (window_spec m h) = last h.
Proof.
  intros Hm Hh. unfold window_spec. apply last_drop_lt.
  assert (0 < length h)%nat by (destruct h; [done | simpl; lia]). lia.
Qed.

Lemma slice_from_last {A} (m : Z) (l : list A) :
  0 <= m -> l <> [] -> last (slice_from (- m) l) = last l.
Proof.
  intros Hm Hl.
  assert (0 < length l)%nat by (destruct l; [done | simpl; lia]).
  destruct (Z.eq_dec m 0) as [-> | Hne]; [by rewrite slice_from_zero |].
  rewrite slice_from_positive_window by lia. apply last_drop_lt. lia.
Qed.

(** The decision is a function of the rate and of the most recent
    record. *)
Lemma make_decision_ext {R : RandomModule} (self : EnhancedTitForTat)
    (h1 h2 : list RoundRecord) (g : rng) :
  h1 <> [] -> h2 <> [] ->
  analyze_pattern self h1 = analyze_pattern self h2 ->
  last h1 = last h2 ->
  EnhancedTitForTat_make_decision self h1 g
  = EnhancedTitForTat_make_decision self h2 g.
Proof.
  intros H1 H2 Hrate Hlast. unfold EnhancedTitForTat_make_decision.
  destruct h1 as [| r1 h1]; [done |]. destruct h2 as [| r2 h2]; [done |].
  rewrite Hrate, Hlast. reflexivity.
Qed.

(** X6 (window locality).  For a positive memory window, the rate and the
    decision on a non-empty history are those on its last
    [min(memory_size, |history|)] records alone: older records have no
    influence, whatever they hold. *)
Theorem decision_depends_on_window {R : RandomModule}
    (self : EnhancedTitForTat) (h : list RoundRecord) (g : rng) :
  0 < memory_size self ->
  h <> [] ->
  analyze_pattern self h
    = analyze_pattern self (window_spec (memory_size self) h)
  /\ EnhancedTitForTat_make_decision self h g
     = EnhancedTitForTat_make_decision self (window_spec (memory_size self) h) g.
Proof.
  intros Hm Hh.
  pose proof (window_spec_nonempty _ _ Hm Hh) as Hw.
  assert (Hrate : analyze_pattern self h
                  = analyze_pattern self (window_spec (memory_size self) h)).
  { rewrite (analyze_pattern_nonempty self h Hh)
      by (apply slice_from_nonempty; [lia | exact Hh]).
    rewrite (analyze_pattern_nonempty self _ Hw)
      by (rewrite window_spec_idem by exact Hm; exact Hw).
    rewrite window_spec_idem by exact Hm.
    rewrite slice_from_positive_window by exact Hm. reflexivity. }
  split; [exact Hrate |].
  apply make_decision_ext; auto.
  symmetry. apply window_spec_last; assumption.
Qed.

(** Five records, window 3: the decision is that on the last three. *)
Lemma decision_depends_on_window_witness :
  let self := {| is_defender := false; memory_size := 3;
                 role := AttackerRole; opponent_history := [] |} in
  let r a b p := {| round := 0; decisions := (a, b); payoffs := p |} in
  @EnhancedTitForTat_make_decision ScriptedRandom self
    [ r DoNotDefend Attack (-8, 8); r DoNotDefend Attack (-8, 8);
      r Defend Attack (-2, 1); r Defend DoNotAttack (3, 3);
      r Defend Attack (-2, 1) ] [900; 5]
  = @EnhancedTitForTat_make_decision ScriptedRandom self
      [ r Defend Attack (-2, 1); r Defend DoNotAttack (3, 3);
        r Defend Attack (-2, 1) ] [900; 5].
Proof.
  cbv zeta.
  refine (proj2 (@decision_depends_on_window ScriptedRandom _ _ [900; 5] _ _)).
  - simpl. lia.
  - discriminate.
Defined.

(** The decision on a non-empty history, once the rate is known. *)
Lemma make_decision_nonempty {R : RandomModule} (self : EnhancedTitForTat)
    (h : list RoundRecord) (rec : RoundRecord) (q : Q) (g : rng) :
  last h = Some rec ->
  analyze_pattern self h = Returns (Some q) ->
  EnhancedTitForTat_make_decision self h g =
    if is_defender self then
      if String.eqb (snd (decisions rec)) Attack || Qlt_bool 0.7 q
      then (Returns Defend, g)
      else (Returns (if Qlt_bool (fst (random_random g)) 0.2
                     then DoNotDefend else Defend),
            snd (random_random g))
    else
      if String.eqb (fst (decisions rec)) DoNotDefend || Qlt_bool q 0.3
      then (Returns Attack, g)
      else (Returns (if Qlt_bool (fst (random_random g)) 0.8
                     then DoNotAttack else Attack),
            snd (random_random g)).
Proof.
  intros Hl Hq. unfold EnhancedTitForTat_make_decision.
  destruct h as [| r0 h0]; [discriminate |].
  rewrite Hq, Hl.
  unfold mbind, M_bind, lift_outcome, mret, M_ret, rate_gt, rate_lt,
    random_below, opponent_index, tuple_get.
  destruct (is_defender self); simpl.
  - destruct (String.eqb _ Attack); simpl; [reflexivity |].
    destruct (Qlt_bool 0.7 q); [reflexivity |].
    destruct (random_random g) as [u g']. reflexivity.
  - destruct (String.eqb _ DoNotDefend); simpl; [reflexivity |].
    destruct (Qlt_bool q 0.3); [reflexivity |].
    destruct (random_random g) as [u g']. reflexivity.
Qed.

Lemma small_rate_not_above (c n : nat) :
  (c < n <= 3)%nat ->
  Qlt_bool 0.7 (inject_Z (Z.of_nat c) / inject_Z (Z.of_nat n)) = false.
Proof.
  intros H.
  destruct n as [| [| [| [| n]]]]; try lia;
    destruct c as [| [| [| c]]]; try lia; reflexivity.
Qed.

Lemma small_rate_not_below (c n : nat) :
  (1 <= c <= n)%nat -> (n <= 3)%nat ->
  Qlt_bool (inject_Z (Z.of_nat c) / inject_Z (Z.of_nat n)) 0.3 = false.
Proof.
  intros H1 H2.
  destruct n as [| [| [| [| n]]]]; try lia;
    destruct c as [| [| [| [| c]]]]; try lia; reflexivity.
Qed.

(** The rate over the slice, with the count and the size of the slice. *)
Lemma analyze_pattern_count (self : EnhancedTitForTat) (h : list RoundRecord)
    (rec : RoundRecord) :
  0 <= memory_size self ->
  last h = Some rec ->
  exists c n : nat,
    analyze_pattern self h
      = Returns (Some (inject_Z (Z.of_nat c) / inject_Z (Z.of_nat n))%Q)
    /\ (c <= n)%nat
    /\ (1 <= n)%nat
    /\ (0 < memory_size self -> Z.of_nat n <= memory_size self)
    /\ (aggressive_spec (is_defender self)
          (opponent_action (is_defender self) rec) -> (1 <= c)%nat)
    /\ (~ aggressive_spec (is_defender self)
          (opponent_action (is_defender self) rec) -> (c < n)%nat).
Proof.
  intros Hm Hl.
  assert (Hh : h <> []) by (intros ->; discriminate).
  pose proof (slice_from_nonempty _ _ Hm Hh) as Hw.
  pose proof (slice_from_last _ _ Hm Hh) as Hlw. rewrite Hl in Hlw.
  set (w := slice_from (- memory_size self) h) in *.
  set (moves := map (opponent_action (is_defender self)) w).
  exists (length (filter (aggressive_spec (is_defender self)) moves)), (length w).
  assert (Hin : opponent_action (is_defender self) rec ∈ moves).
  { unfold moves. apply list_elem_of_fmap. exists rec. split; [reflexivity |].
    eapply last_Some_elem_of, Hlw. }
  assert (Hlm : length moves = length w) by (unfold moves; apply length_map).
  split; [apply analyze_pattern_nonempty; assumption |].
  split; [rewrite <- Hlm; apply length_filter |].
  split; [destruct w; [done | simpl; lia] |].
  split.
  { intros Hpos. unfold w. rewrite slice_from_positive_window by exact Hpos.
    rewrite length_drop. lia. }
  split.
  - intros Hag.
    assert (Hf : opponent_action (is_defender self) rec
                 ∈ filter (aggressive_spec (is_defender self)) moves)
      by (apply list_elem_of_filter; auto).
    destruct (filter _ moves); [by apply not_elem_of_nil in Hf | simpl; lia].
  - intros Hnag. rewrite <- Hlm. eapply length_filter_lt; eassumption.
Qed.

(** X7 (with a window of at most three only the last move matters).  For
    a memory window of 1, 2 or 3 (3 is the default) the rate thresholds can
    never decide: the defender returns Defend when the opponent's last
    action is Attack and otherwise draws (DoNotDefend when the draw is below
    0.2); the attacker, facing a last defender action in the defender's
    domain, returns Attack when it is DoNotDefend and otherwise draws
    (DoNotAttack when the draw is below 0.8). *)
Theorem small_window_last_move_only {R : RandomModule}
    (self : EnhancedTitForTat) (h : list RoundRecord) (rec : RoundRecord)
    (g : rng) :
  0 < memory_size self <= 3 ->
  last h = Some rec ->
  (is_defender self = true ->
     EnhancedTitForTat_make_decision self h g =
       if String.eqb (snd (decisions rec)) Attack
       then (Returns Defend, g)
       else (Returns (if Qlt_bool (fst (random_random g)) 0.2
                      then DoNotDefend else Defend),
             snd (random_random g)))
  /\ (is_defender self = false ->
      defender_action (fst (decisions rec)) ->
      EnhancedTitForTat_make_decision self h g =
        if String.eqb (fst (decisions rec)) DoNotDefend
        then (Returns Attack, g)
        else (Returns (if Qlt_bool (fst (random_random g)) 0.8
                       then DoNotAttack else Attack),
              snd (random_random g))).
Proof.
  intros [Hm1 Hm3] Hl.
  destruct (analyze_pattern_count self h rec ltac:(lia) Hl)
    as (c & n & Hq & Hcn & Hn1 & Hnm & Hag & Hnag).
  specialize (Hnm Hm1).
  rewrite (make_decision_nonempty self h rec _ g Hl Hq).
  split.
  - intros Hd. rewrite Hd in *. simpl in Hag, Hnag.
    unfold opponent_action in Hnag.
    destruct (String.eqb (snd (decisions rec)) Attack) eqn:E; [reflexivity |].
    apply String.eqb_neq in E.
    rewrite small_rate_not_above by (specialize (Hnag E); lia).
    reflexivity.
  - intros Hd Hdom. rewrite Hd in *. simpl in Hag, Hnag.
    unfold opponent_action in Hag.
    destruct (String.eqb (fst (decisions rec)) DoNotDefend) eqn:E; [reflexivity |].
    apply String.eqb_neq in E.
    destruct Hdom as [Hdef | Hnd]; [| contradiction].
    rewrite small_rate_not_below by (try specialize (Hag Hdef); lia).
    reflexivity.
Qed.

(** Two attacks followed by a quiet round, window 3: the rate is 2/3, the
    threshold 0.7 is not passed, and the defender draws. *)
Lemma small_window_last_move_only_witness :
  let r a b p := {| round := 0; decisions := (a, b); payoffs := p |} in
  @EnhancedTitForTat_make_decision ScriptedRandom
    {| is_defender := true; memory_size := 3;
       role := DefenderRole; opponent_history := [] |}
    [ r Defend Attack (-2, 1); r Defend Attack (-2, 1);
      r Defend DoNotAttack (3, 3) ] [100; 5]
  = (Returns DoNotDefend, [5]).
Proof.
  cbv zeta.
  refine (proj1 (@small_window_last_move_only ScriptedRandom
    {| is_defender := true; memory_size := 3;
       role := DefenderRole; opponent_history := [] |} _
    {| round := 0; decisions := (Defend, DoNotAttack); payoffs := (3, 3) |}
    [100; 5] _ _) _).
  - simpl. lia.
  - reflexivity.
  - reflexivity.
Defined.

(** X8 (the decision rule).  For a positive memory window and a history
    with most recent record [rec], [make_decision] is the four-way rule over
    the opponent's last action and the rate of the window: a defender
    returns Defend without drawing when the last action is Attack or the
    rate exceeds 0.7, and otherwise draws once (DoNotDefend below 0.2); an
    attacker returns Attack without drawing when the last action is
    DoNotDefend or the rate is below 0.3, and otherwise draws once
    (DoNotAttack below 0.8).  In particular an attacker always attacks, and
    draws nothing, right after an undefended round. *)
Theorem decision_rule {R : RandomModule} (self : EnhancedTitForTat)
    (h : list RoundRecord) (rec : RoundRecord) (g : rng) :
  0 < memory_size self ->
  last h = Some rec ->
  let rate := aggressiveRate_spec (is_defender self) (memory_size self) h in
  EnhancedTitForTat_make_decision self h g =
    (if is_defender self then
       if String.eqb (snd (decisions rec)) Attack || Qlt_bool 0.7 rate
       then (Returns Defend, g)
       else (Returns (if Qlt_bool (fst (random_random g)) 0.2
                      then DoNotDefend else Defend),
             snd (random_random g))
     else
       if String.eqb (fst (decisions rec)) DoNotDefend || Qlt_bool rate 0.3
       then (Returns Attack, g)
       else (Returns (if Qlt_bool (fst (random_random g)) 0.8
                      then DoNotAttack else Attack),
             snd (random_random g)))
  /\ (is_defender self = false ->
      fst (decisions rec) = DoNotDefend ->
      EnhancedTitForTat_make_decision self h g = (Returns Attack, g)).
Proof.
  intros Hm Hl rate.
  assert (Hh : h <> []) by (intros ->; discriminate).
  assert (Hq : analyze_pattern self h = Returns (Some rate)).
  { unfold rate, aggressiveRate_spec, window_spec.
    rewrite <- slice_from_positive_window by exact Hm.
    apply analyze_pattern_nonempty; [exact Hh |].
    apply slice_from_nonempty; [lia | exact Hh]. }
  pose proof (make_decision_nonempty self h rec rate g Hl Hq) as Hrule.
  split; [exact Hrule |].
  intros Hd Hnd. rewrite Hrule, Hd, Hnd. reflexivity.
Qed.

(** An attacker right after an undefended round, with a draw waiting that
    would have made it hold fire. *)
Lemma decision_rule_witness :
  let r a b p := {| round := 0; decisions := (a, b); payoffs := p |} in
  @EnhancedTitForTat_make_decision ScriptedRandom
    {| is_defender := false; memory_size := 5;
       role := AttackerRole; opponent_history := [] |}
    [ r Defend Attack (-2, 1); r Defend DoNotAttack (3, 3);
      r DoNotDefend DoNotAttack (4, 4) ] [100; 5]
  = (Returns Attack, [100; 5]).
Proof.
  cbv zeta.
  refine (proj2 (@decision_rule ScriptedRandom
    {| is_defender := false; memory_size := 5;
       role := AttackerRole; opponent_history := [] |} _
    {| round := 0; decisions := (DoNotDefend, DoNotAttack); payoffs := (4, 4) |}
    [100; 5] _ _) _ _).
  - simpl. lia.
  - reflexivity.
  - reflexivity.
  - reflexivity.
Defined.

(** ** [EnhancedTitForTat]: memory windows that are not positive *)

Lemma slice_from_negative_window {A} (m : Z) (l : list A) :
  m < 0 -> slice_from (- m) l = drop (Z.to_nat (- m)) l.
Proof.
  intros Hm. unfold slice_from.
  destruct (- m <? 0) eqn:E; [apply Z.ltb_lt in E; lia |].
  destruct (Z_le_gt_dec (- m) (Z.of_nat (length l))) as [Hle | Hgt].
  - rewrite Z.min_l by lia. reflexivity.
  - rewrite Z.min_r by lia. rewrite Nat2Z.id.
    rewrite drop_all. symmetry. apply drop_ge. lia.
Qed.

Lemma make_decision_negative_window {R : RandomModule}
    (self : EnhancedTitForTat) (h : list RoundRecord) (g : rng) :
  h <> [] ->
  memory_size self < 0 ->
  Z.of_nat (length h) <= - memory_size self ->
  analyze_pattern self h = Raises ZeroDivisionError
  /\ EnhancedTitForTat_make_decision self h g = (Raises ZeroDivisionError, g).
Proof.
  intros Hh Hm Hlen.
  assert (Hrate : analyze_pattern self h = Raises ZeroDivisionError).
  { unfold analyze_pattern. destruct h as [| r0 h0]; [done |].
    rewrite slice_from_negative_window by exact Hm.
    rewrite drop_ge by lia. reflexivity. }
  split; [exact Hrate |].
  unfold EnhancedTitForTat_make_decision.
  destruct h as [| r0 h0]; [done |].
  apply bind_raises. unfold lift_outcome. rewrite Hrate. reflexivity.
Qed.

(** X9 (windows that are not positive).  A memory window of 0 makes the
    window the whole history.  A negative window [m] makes the slice drop
    the first [-m] records instead of keeping the last ones: on a non-empty
    history of at most [-m] records the rate is a division by zero, and
    [analyze_pattern] and [make_decision] raise [ZeroDivisionError] without
    drawing; on a longer history the rate is taken over all records but the
    first [-m]. *)
Theorem nonpositive_window {R : RandomModule} (self : EnhancedTitForTat)
    (h : list RoundRecord) (g : rng) :
  h <> [] ->
  (memory_size self = 0 ->
     analyze_pattern self h
     = Returns (Some
         (inject_Z (Z.of_nat (length
            (filter (aggressive_spec (is_defender self))
               (map (opponent_action (is_defender self)) h))))
          / inject_Z (Z.of_nat (length h)))%Q))
  /\ (memory_size self < 0 ->
      Z.of_nat (length h) <= - memory_size self ->
      analyze_pattern self h = Raises ZeroDivisionError
      /\ EnhancedTitForTat_make_decision self h g = (Raises ZeroDivisionError, g))
  /\ (memory_size self < 0 ->
      - memory_size self < Z.of_nat (length h) ->
      let kept := drop (Z.to_nat (- memory_size self)) h in
      analyze_pattern self h
      = Returns (Some
          (inject_Z (Z.of_nat (length
             (filter (aggressive_spec (is_defender self))
                (map (opponent_action (is_defender self)) kept))))
           / inject_Z (Z.of_nat (length kept)))%Q)).
Proof.
  intros Hh. split; [| split].
  - intros H0.
    rewrite analyze_pattern_nonempty;
      rewrite ?H0, ?slice_from_zero; auto.
  - intros Hm Hlen. by apply make_decision_negative_window.
  - intros Hm Hlen kept.
    assert (Hs : slice_from (- memory_size self) h = kept)
      by (apply slice_from_negative_window; exact Hm).
    rewrite analyze_pattern_nonempty; rewrite ?Hs; auto.
    intros E. apply (f_equal length) in E. unfold kept in E.
    rewrite length_drop in E. simpl in E. lia.
Qed.

(** Window -2, two records: both functions raise; the script is left as it
    was. *)
Lemma nonpositive_window_witness :
  let r a b p := {| round := 0; decisions := (a, b); payoffs := p |} in
  @EnhancedTitForTat_make_decision ScriptedRandom
    {| is_defender := false; memory_size := -2;
       role := AttackerRole; opponent_history := [] |}
    [ r Defend Attack (-2, 1); r Defend DoNotAttack (3, 3) ] [100; 5]
  = (Raises ZeroDivisionError, [100; 5]).
Proof.
  cbv zeta.
  refine (proj2 (proj1 (proj2 (@nonpositive_window ScriptedRandom
    {| is_defender := false; memory_size := -2;
       role := AttackerRole; opponent_history := [] |} _ [100; 5] _)) _ _)).
  - discriminate.
  - simpl. lia.
  - simpl. lia.
Defined.

(** ** Runs of [EnhancedTitForTat]: what follows what *)

Section RunTrace.
Context {R : RandomModule}.

(** Every record a run appends holds the answers the two strategies gave on
    the history as it stood before that round. *)
Lemma for_range_trace n (sa sb : strategy) : forall s g d t,
  scores s !! DefenderRole = Some d ->
  scores s !! AttackerRole = Some t ->
  exists recs,
    history (session_of (for_range n (play_round sa sb) (s, g)))
      = history s ++ recs
    /\ forall (i : nat) (r : RoundRecord),
         recs !! i = Some r ->
         payoff_matrix s !! decisions r = Some (payoffs r)
         /\ exists g0 g1 g2,
              sa (history s ++ take i recs) g0 = (Returns (fst (decisions r)), g1)
              /\ sb (history s ++ take i recs) g1 = (Returns (snd (decisions r)), g2).
Proof.
  induction n as [| n IH]; intros s g d t Hd Ht.
  { exists []. simpl. rewrite app_nil_r. split; [reflexivity |].
    intros i r Hi. by rewrite lookup_nil in Hi. }
  rewrite for_range_S.
  destruct (sa (history s) g) as [[a | e] g1] eqn:Ha.
  2: { rewrite (play_round_strategy_a_raises sa sb s g e g1 Ha).
       exists []. unfold session_of. simpl. rewrite app_nil_r.
       split; [reflexivity |]. intros i r Hi. by rewrite lookup_nil in Hi. }
  destruct (sb (history s) g1) as [[b | e] g2] eqn:Hb.
  2: { rewrite (play_round_strategy_b_raises sa sb s g a g1 e g2 Ha Hb).
       exists []. unfold session_of. simpl. rewrite app_nil_r.
       split; [reflexivity |]. intros i r Hi. by rewrite lookup_nil in Hi. }
  destruct (payoff_matrix s !! (a, b)) as [p |] eqn:Hk.
  2: { rewrite (play_round_KeyError sa sb s g a g1 b g2 Ha Hb Hk).
       exists []. unfold session_of. simpl. rewrite app_nil_r.
       split; [reflexivity |]. intros i r Hi. by rewrite lookup_nil in Hi. }
  rewrite (play_round_returns sa sb s g a g1 b g2 p d t Ha Hb Hk Hd Ht).
  set (s1 := session_after_round s a b p d t).
  destruct (IH s1 g2 _ _
              (session_after_round_defender s a b p d t)
              (session_after_round_attacker s a b p d t))
    as (recs & Hh & Htr).
  exists (new_record s a b p :: recs). split.
  - rewrite Hh. unfold s1. simpl. rewrite <- app_assoc. reflexivity.
  - intros [| i] r Hi; simpl in Hi.
    + inversion Hi; subst r. simpl. rewrite app_nil_r.
      split; [exact Hk |]. exists g, g1, g2. auto.
    + destruct (Htr i r Hi) as (Hp & g0' & g1' & g2' & Hsa & Hsb).
      split; [exact Hp |]. exists g0', g1', g2'.
      unfold s1 in Hsa, Hsb. simpl in Hsa, Hsb.
      rewrite <- app_assoc in Hsa, Hsb. simpl in Hsa, Hsb. auto.
Qed.

(** Two consecutive records of a run on a fresh session: the later one
    holds the answers given on a history whose most recent record is the
    earlier one. *)
Lemma run_game_consecutive (sa sb : strategy) (rounds : Z) (g : rng)
    (i : nat) (r r' : RoundRecord) :
  let H := history (session_of (run_game sa sb rounds (NetworkSecurityGame_init, g))) in
  H !! i = Some r ->
  H !! Datatypes.S i = Some r' ->
  payoff_matrix NetworkSecurityGame_init !! decisions r' = Some (payoffs r')
  /\ exists h g0 g1 g2,
       last h = Some r
       /\ sa h g0 = (Returns (fst (decisions r')), g1)
       /\ sb h g1 = (Returns (snd (decisions r')), g2).
Proof.
  intros H Hi Hi'.
  destruct (for_range_trace (Z.to_nat rounds) sa sb NetworkSecurityGame_init g
              0 0 init_scores_defender init_scores_attacker)
    as (recs & Hh & Htr).
  fold (run_game sa sb rounds) in Hh. simpl in Hh. fold H in Hh.
  rewrite Hh in Hi, Hi'.
  destruct (Htr _ _ Hi') as (Hp & g0 & g1 & g2 & Hsa & Hsb).
  split; [exact Hp |].
  exists (take (Datatypes.S i) recs), g0, g1, g2. simpl in Hsa, Hsb.
  split; [| auto].
  rewrite (take_S_r _ _ _ Hi). apply last_snoc.
Qed.

(** The attacker's branch that needs no draw. *)
Lemma attacker_after_undefended (self : EnhancedTitForTat) h rec g :
  is_defender self = false ->
  0 <= memory_size self ->
  last h = Some rec ->
  fst (decisions rec) = DoNotDefend ->
  EnhancedTitForTat_make_decision self h g = (Returns Attack, g).
Proof.
  intros Hd Hm Hl Hnd.
  destruct (analyze_pattern_count self h rec Hm Hl) as (c & n & Hq & _).
  rewrite (make_decision_nonempty self h rec _ g Hl Hq), Hd, Hnd.
  reflexivity.
Qed.

End RunTrace.

(** X10 (a defender is never caught twice in a row).  In any run on a
    fresh session whose defender is an [EnhancedTitForTat] with a window
    that is not negative, against any attacker strategy, a round in which
    the attacker attacked is followed, if the run goes on, by a round in
    which the defender defends; so the payoff pair (-8, 8) never comes right
    after an attack. *)
Theorem defender_never_caught_twice {R : RandomModule}
    (self : EnhancedTitForTat) (sb : strategy) (rounds : Z) (g : rng)
    (i : nat) (r r' : RoundRecord) :
  is_defender self = true ->
  0 <= memory_size self ->
  let H := history (session_of
             (run_game (EnhancedTitForTat_make_decision self) sb rounds
                (NetworkSecurityGame_init, g))) in
  H !! i = Some r ->
  H !! Datatypes.S i = Some r' ->
  snd (decisions r) = Attack ->
  fst (decisions r') = Defend /\ payoffs r' <> (-8, 8).
Proof.
  intros Hd Hm H Hi Hi' Hatt.
  destruct (run_game_consecutive _ sb rounds g i r r' Hi Hi')
    as (Hp & h & g0 & g1 & g2 & Hl & Hsa & _).
  assert (Hh : h <> []) by (intros ->; discriminate).
  rewrite (defender_after_attack self h r g0 Hd
             (slice_from_nonempty _ _ Hm Hh) Hl Hatt) in Hsa.
  assert (Hdef : fst (decisions r') = Defend) by (inversion Hsa; auto).
  split; [exact Hdef |].
  destruct r' as [n' [a' b'] p']. simpl in *. subst a'.
  assert (Hv : valid_pair Defend b') by (apply init_payoff_keys; eauto).
  destruct Hv as [_ [-> | ->]]; vm_compute in Hp; inversion Hp; discriminate.
Qed.

Lemma defender_never_caught_twice_witness :
  let H := history (session_of
             (@run_game ScriptedRandom
                (EnhancedTitForTat_make_decision
                   {| is_defender := true; memory_size := 3;
                      role := DefenderRole; opponent_history := [] |})
                RandomAttacker_make_decision 3
                (NetworkSecurityGame_init, [0; 100; 0]))) in
  fst (decisions (default (new_record NetworkSecurityGame_init "" "" (0, 0))
                    (H !! 1%nat))) = Defend.
Proof.
  cbv zeta.
  refine (proj1 (@defender_never_caught_twice ScriptedRandom
    {| is_defender := true; memory_size := 3;
       role := DefenderRole; opponent_history := [] |}
    RandomAttacker_make_decision 3 [0; 100; 0] 0%nat
    {| round := 1; decisions := (Defend, Attack); payoffs := (-2, 1) |}
    _ _ _ _ _ _)).
  - reflexivity.
  - simpl. lia.
  - vm_compute. reflexivity.
  - vm_compute. reflexivity.
  - reflexivity.
Defined.

(** X11 (an attacker exploits every undefended round).  In any run on a
    fresh session whose attacker is an [EnhancedTitForTat] with a window
    that is not negative, against any defender strategy, a round in which
    the defender did not defend is followed, if the run goes on, by a round
    in which the attacker attacks. *)
Theorem attacker_exploits_undefended {R : RandomModule}
    (self : EnhancedTitForTat) (sa : strategy) (rounds : Z) (g : rng)
    (i : nat) (r r' : RoundRecord) :
  is_defender self = false ->
  0 <= memory_size self ->
  let H := history (session_of
             (run_game sa (EnhancedTitForTat_make_decision self) rounds
                (NetworkSecurityGame_init, g))) in
  H !! i = Some r ->
  H !! Datatypes.S i = Some r' ->
  fst (decisions r) = DoNotDefend ->
  snd (decisions r') = Attack.
Proof.
  intros Hd Hm H Hi Hi' Hnd.
  destruct (run_game_consecutive sa _ rounds g i r r' Hi Hi')
    as (_ & h & g0 & g1 & g2 & Hl & _ & Hsb).
  rewrite (attacker_after_undefended self h r g1 Hd Hm Hl Hnd) in Hsb.
  inversion Hsb; auto.
Qed.

Lemma attacker_exploits_undefended_witness :
  let H := history (session_of
             (@run_game ScriptedRandom
                (PassiveDefender_make_decision {| defense_prob := 0 |})
                (EnhancedTitForTat_make_decision
                   {| is_defender := false; memory_size := 3;
                      role := AttackerRole; opponent_history := [] |})
                3 (NetworkSecurityGame_init, [0; 100; 0]))) in
  snd (decisions (default (new_record NetworkSecurityGame_init "" "" (0, 0))
                    (H !! 1%nat))) = Attack.
Proof.
  cbv zeta.
  refine (@attacker_exploits_undefended ScriptedRandom
    {| is_defender := false; memory_size := 3;
       role := AttackerRole; opponent_history := [] |}
    (PassiveDefender_make_decision {| defense_prob := 0 |}) 3 [0; 100; 0] 0%nat
    {| round := 1; decisions := (DoNotDefend, DoNotAttack); payoffs := (4, 4) |}
    _ _ _ _ _ _).
  - reflexivity.
  - simpl. lia.
  - vm_compute. reflexivity.
  - vm_compute. reflexivity.
  - reflexivity.
Defined.

(** X12 (the first round of two reciprocators).  Two [EnhancedTitForTat]
    policies, one built as defender and one as attacker, with any memory
    windows and over any random source: the first round on a fresh session
    draws nothing and is mutual cooperation, Defend against DoNotAttack with
    the payoff pair (3, 3), and it is the first record of every run of at
    least one round. *)
Theorem first_round_cooperation {R : RandomModule}
    (self_d self_a : EnhancedTitForTat) (rounds : Z) (g : rng) :
  is_defender self_d = true ->
  is_defender self_a = false ->
  1 <= rounds ->
  play_round (EnhancedTitForTat_make_decision self_d)
     (EnhancedTitForTat_make_decision self_a) (NetworkSecurityGame_init, g)
    = (Returns tt,
       (session_after_round NetworkSecurityGame_init Defend DoNotAttack (3, 3) 0 0,
        g))
  /\ history (session_of
       (run_game (EnhancedTitForTat_make_decision self_d)
          (EnhancedTitForTat_make_decision self_a) rounds
          (NetworkSecurityGame_init, g))) !! 0%nat
     = Some {| round := 1; decisions := (Defend, DoNotAttack); payoffs := (3, 3) |}.
Proof.
  intros Hd Ha Hr.
  assert (Hfirst :
    play_round (EnhancedTitForTat_make_decision self_d)
      (EnhancedTitForTat_make_decision self_a) (NetworkSecurityGame_init, g)
    = (Returns tt,
       (session_after_round NetworkSecurityGame_init Defend DoNotAttack (3, 3) 0 0,
        g))).
  { apply (play_round_returns _ _ _ g Defend g DoNotAttack g).
    - simpl. unfold EnhancedTitForTat_make_decision. rewrite Hd. reflexivity.
    - simpl. unfold EnhancedTitForTat_make_decision. rewrite Ha. reflexivity.
    - reflexivity.
    - reflexivity.
    - reflexivity. }
  split; [exact Hfirst |].
  unfold run_game.
  destruct (Z.to_nat rounds) as [| n] eqn:En; [lia |].
  rewrite for_range_S, Hfirst.
  destruct (for_range_history_prefix
              (EnhancedTitForTat_make_decision self_d)
              (EnhancedTitForTat_make_decision self_a) n
              (session_after_round NetworkSecurityGame_init Defend DoNotAttack
                 (3, 3) 0 0) g) as [k Hk].
  rewrite Hk. reflexivity.
Qed.

Lemma first_round_cooperation_witness :
  history (session_of
    (@run_game ScriptedRandom
       (EnhancedTitForTat_make_decision
          {| is_defender := true; memory_size := 7;
             role := DefenderRole; opponent_history := [] |})
       (EnhancedTitForTat_make_decision
          {| is_defender := false; memory_size := -4;
             role := AttackerRole; opponent_history := [] |})
       4 (NetworkSecurityGame_init, [1; 2; 3]))) !! 0%nat
  = Some {| round := 1; decisions := (Defend, DoNotAttack); payoffs := (3, 3) |}.
Proof.
  refine (proj2 (@first_round_cooperation ScriptedRandom _ _ 4 [1; 2; 3] _ _ _)).
  - reflexivity.
  - reflexivity.
  - lia.
Defined.

Lemma attacker_action_not_defender (a : string) :
  attacker_action a -> ~ defender_action a.
Proof. intros [-> | ->] [E | E]; discriminate E. Qed.

Lemma defender_action_not_attacker (a : string) :
  defender_action a -> ~ attacker_action a.
Proof. intros [-> | ->] [E | E]; discriminate E. Qed.

(** X13 (a negative window stops the run in the second round).  A defender
    built as [EnhancedTitForTat] with a negative memory window, against any
    of the repository's policies in the attacker's seat, over a lawful
    random source: the first round completes with the defender defending,
    the second raises [ZeroDivisionError], and a run of two or more rounds
    ends with that exception and exactly one record. *)
Theorem negative_window_stops_run {R : RandomModule} {L : RandomModuleLaws R}
    (self : EnhancedTitForTat) (pb : policy) (rounds : Z) (g : rng) :
  is_defender self = true ->
  memory_size self < 0 ->
  attacker_policy pb ->
  2 <= rounds ->
  let x := run_game (EnhancedTitForTat_make_decision self) (make_decision pb)
             rounds (NetworkSecurityGame_init, g) in
  outcome_of x = Raises ZeroDivisionError
  /\ exists r, history (session_of x) = [r] /\ fst (decisions r) = Defend.
Proof.
  intros Hd Hm Hpb Hr x. unfold x, run_game.
  destruct (Z.to_nat rounds) as [| [| n]] eqn:En; [lia | lia |].
  destruct (attacker_policy_domain pb [] g Hpb) as (b & g' & Hb & Hdom).
  destruct (proj2 (init_payoff_keys Defend b) (conj (or_introl eq_refl) Hdom))
    as [p Hk].
  assert (Ha : EnhancedTitForTat_make_decision self
                 (history NetworkSecurityGame_init) g = (Returns Defend, g)).
  { simpl. unfold EnhancedTitForTat_make_decision. rewrite Hd. reflexivity. }
  rewrite for_range_S.
  rewrite (play_round_returns _ _ _ g Defend g b g' p 0 0 Ha Hb Hk
             init_scores_defender init_scores_attacker).
  set (s1 := session_after_round NetworkSecurityGame_init Defend b p 0 0).
  assert (Hraise : EnhancedTitForTat_make_decision self (history s1) g'
                   = (Raises ZeroDivisionError, g')).
  { apply make_decision_negative_window; [discriminate | exact Hm |].
    unfold s1. simpl. lia. }
  rewrite (for_range_raises n _ (s1, g') ZeroDivisionError (s1, g')
             (play_round_strategy_a_raises _ _ s1 g' _ g' Hraise)).
  split; [reflexivity |].
  eexists. split; reflexivity.
Qed.

Lemma negative_window_stops_run_witness :
  let x := @run_game ScriptedRandom
             (EnhancedTitForTat_make_decision
                {| is_defender := true; memory_size := -1;
                   role := DefenderRole; opponent_history := [] |})
             (make_decision PolicyRandomAttacker) 100
             (NetworkSecurityGame_init, [3; 1; 4]) in
  outcome_of x = Raises ZeroDivisionError
  /\ exists r, history (session_of x) = [r] /\ fst (decisions r) = Defend.
Proof.
  cbv zeta.
  refine (@negative_window_stops_run ScriptedRandom ScriptedRandom_laws
            _ PolicyRandomAttacker 100 [3; 1; 4] _ _ _ _).
  - reflexivity.
  - simpl. lia.
  - exact I.
  - lia.
Defined.

(** X14 (a policy in the wrong seat).  When one of the repository's
    attacker policies is passed as the defender strategy (for instance the
    two arguments of [run_game] swapped), whatever policy of the repository
    sits in the other seat, the first round raises [KeyError]: a run of at
    least one round ends with it and records nothing. *)
Theorem wrong_seat_raises {R : RandomModule} {L : RandomModuleLaws R}
    (pa pb : policy) (rounds : Z) (g : rng) :
  attacker_policy pa ->
  defender_policy pb \/ attacker_policy pb ->
  1 <= rounds ->
  let x := run_game (make_decision pa) (make_decision pb) rounds
             (NetworkSecurityGame_init, g) in
  outcome_of x = Raises KeyError
  /\ session_of x = NetworkSecurityGame_init.
Proof.
  intros Hpa Hpb Hr x.
  destruct (attacker_policy_domain pa (history NetworkSecurityGame_init) g Hpa)
    as (a & g1 & Ha & Hdom).
  assert (Hb : exists b g2,
             make_decision pb (history NetworkSecurityGame_init) g1 = (Returns b, g2)).
  { destruct Hpb as [Hpb | Hpb].
    - destruct (defender_policy_domain pb [] g1 Hpb) as (b & g2 & Hb & _). eauto.
    - destruct (attacker_policy_domain pb [] g1 Hpb) as (b & g2 & Hb & _). eauto. }
  destruct Hb as (b & g2 & Hb).
  assert (Hk : payoff_matrix NetworkSecurityGame_init !! (a, b) = None).
  { apply init_payoff_missing. intros [Hda _].
    exact (attacker_action_not_defender a Hdom Hda). }
  assert (Hrun : x = (Raises KeyError, (NetworkSecurityGame_init, g2))).
  { unfold x, run_game.
    destruct (Z.to_nat rounds) as [| n] eqn:En; [lia |].
    apply for_range_raises. eapply play_round_KeyError; eassumption. }
  rewrite Hrun. split; reflexivity.
Qed.

(** The two strategies of [main]'s first match-up, swapped. *)
Lemma wrong_seat_raises_witness :
  let x := @run_game ScriptedRandom
             (make_decision PolicyRandomAttacker)
             (make_decision (PolicyEnhancedTitForTat
                {| is_defender := true; memory_size := 3;
                   role := DefenderRole; opponent_history := [] |}))
             100 (NetworkSecurityGame_init, [3; 1; 4]) in
  outcome_of x = Raises KeyError
  /\ session_of x = NetworkSecurityGame_init.
Proof.
  cbv zeta.
  refine (@wrong_seat_raises ScriptedRandom ScriptedRandom_laws
            PolicyRandomAttacker _ 100 [3; 1; 4] _ _ _).
  - exact I.
  - left. simpl. split; [reflexivity | lia].
  - lia.
Defined.

(** ** [PassiveDefender] over the whole range of its parameter *)

(** X15 (the defence probability saturates).  [PassiveDefender] draws
    exactly once and returns Defend exactly when the draw is below its
    probability; it never raises, whatever the probability.  Over a lawful
    source a probability of 0 or less always gives DoNotDefend and a
    probability of 1 or more always gives Defend. *)
Theorem passive_defender_saturates {R : RandomModule} {L : RandomModuleLaws R}
    (self : PassiveDefender) (h : list RoundRecord) (g : rng) :
  (exists a, PassiveDefender_make_decision self h g
             = (Returns a, snd (random_random g))
             /\ (a = Defend \/ a = DoNotDefend)
             /\ (a = Defend <-> (fst (random_random g) < defense_prob self)%Q))
  /\ ((defense_prob self <= 0)%Q ->
      PassiveDefender_make_decision self h g
      = (Returns DoNotDefend, snd (random_random g)))
  /\ ((1 <= defense_prob self)%Q ->
      PassiveDefender_make_decision self h g
      = (Returns Defend, snd (random_random g))).
Proof.
  pose proof (random_random_range g) as [Hge Hlt].
  unfold PassiveDefender_make_decision.
  destruct (random_random g) as [u g']. simpl in *.
  split; [| split].
  - destruct (Qlt_bool u (defense_prob self)) eqn:E.
    + exists Defend. split; [reflexivity |]. split; [auto |].
      split; [intros _; by apply Qlt_bool_iff | reflexivity].
    + exists DoNotDefend. split; [reflexivity |]. split; [auto |].
      split; [discriminate |].
      intros Hu. apply Qlt_bool_iff in Hu. congruence.
  - intros Hp.
    destruct (Qlt_bool u (defense_prob self)) eqn:E; [| reflexivity].
    apply Qlt_bool_iff in E. exfalso.
    apply (Qlt_irrefl u). eapply Qlt_le_trans; [exact E |].
    eapply Qle_trans; eassumption.
  - intros Hp.
    destruct (Qlt_bool u (defense_prob self)) eqn:E; [reflexivity |].
    assert (Hb : Qlt_bool u (defense_prob self) = true)
      by (apply Qlt_bool_iff; eapply Qlt_le_trans; eassumption).
    congruence.
Qed.

(** A probability of -1/2 and the smallest draw there is. *)
Lemma passive_defender_saturates_witness :
  @PassiveDefender_make_decision ScriptedRandom
    {| defense_prob := - (1 # 2) |} [] [0; 7]
  = (Returns DoNotDefend, [7]).
Proof.
  refine (proj1 (proj2 (@passive_defender_saturates ScriptedRandom
    ScriptedRandom_laws {| defense_prob := - (1 # 2) |} [] [0; 7])) _).
  discriminate.
Defined.

(** ** The curves of [plot_results] *)

Lemma wrap_int64_small (z : Z) :
  - 2 ^ 63 <= z < 2 ^ 63 -> wrap_int64 z = z.
Proof.
  intros Hz. unfold wrap_int64. rewrite Z.mod_small by lia. lia.
Qed.

Lemma np_cumsum_from_length (l : list Z) : forall acc,
  length (np_cumsum_from acc l) = length l.
Proof. induction l as [| x l IH]; intros acc; simpl; [reflexivity | by rewrite IH]. Qed.

(** While the partial sums fit 64 bits the cumulative sums are the exact
    sums of the prefixes. *)
Lemma np_cumsum_from_exact (l : list Z) : forall acc (i : nat),
  Forall (fun z => -8 <= z <= 8) l ->
  - 2 ^ 63 <= acc - 8 * Z.of_nat (length l) ->
  acc + 8 * Z.of_nat (length l) < 2 ^ 63 ->
  (i < length l)%nat ->
  np_cumsum_from acc l !! i = Some (acc + Zsum (take (Datatypes.S i) l)).
Proof.
  induction l as [| x l IH]; intros acc i Hall Hlo Hhi Hi; [simpl in Hi; lia |].
  inversion Hall as [| ? ? Hx Hl]; subst.
  simpl length in Hlo, Hhi.
  simpl np_cumsum_from. rewrite wrap_int64_small by lia.
  destruct i as [| i]; simpl.
  - f_equal. lia.
  - rewrite IH by (simpl in Hi; auto; lia).
    f_equal. simpl. lia.
Qed.

Lemma table_records_small (recs : list RoundRecord) :
  Forall (fun r => payoff_matrix NetworkSecurityGame_init !! decisions r
                   = Some (payoffs r)) recs ->
  Forall (fun z => -8 <= z <= 8) (defender_payoffs recs)
  /\ Forall (fun z => -8 <= z <= 8) (attacker_payoffs recs).
Proof.
  intros Hall. unfold defender_payoffs, attacker_payoffs.
  split; apply Forall_fmap; (eapply Forall_impl; [exact Hall |]);
    intros r Hr; apply init_payoff_range in Hr; simpl; lia.
Qed.

(** X16 (the curves agree with the session).  For the session left by any
    run of fewer than 2^60 rounds on a fresh session, [plot_results] hands
    to every plotting call an x axis and a series of the same length, the
    number of recorded rounds; the x axis is the list of the round numbers;
    the i-th point of each cumulative curve is the exact sum of the first
    i+1 payoffs of that role (the 64-bit sums do not wrap); and the last
    point of each cumulative curve is that role's score. *)
Theorem plot_results_agrees_with_session {R : RandomModule} (sa sb : strategy)
    (rounds : Z) (g : rng) :
  rounds < 2 ^ 60 ->
  let s' := session_of (run_game sa sb rounds (NetworkSecurityGame_init, g)) in
  let P := plot_results s' in
  (length (plot_x P) = length (history s')
   /\ length (plot_payoffs_a P) = length (history s')
   /\ length (plot_payoffs_b P) = length (history s')
   /\ length (plot_cumulative_a P) = length (history s')
   /\ length (plot_cumulative_b P) = length (history s'))
  /\ plot_x P = map round (history s')
  /\ (forall i : nat, (i < length (history s'))%nat ->
        plot_cumulative_a P !! i
          = Some (Zsum (take (Datatypes.S i) (defender_payoffs (history s'))))
        /\ plot_cumulative_b P !! i
          = Some (Zsum (take (Datatypes.S i) (attacker_payoffs (history s')))))
  /\ (history s' <> [] ->
      last (plot_cumulative_a P) = scores s' !! DefenderRole
      /\ last (plot_cumulative_b P) = scores s' !! AttackerRole).
Proof.
  intros Hr s' P.
  destruct (for_range_play_round (Z.to_nat rounds) sa sb
              NetworkSecurityGame_init g 0 0
              init_scores_defender init_scores_attacker)
    as (recs & _ & Hh & Hd & Ht & Hrd & Hle & _ & Hall).
  cbv zeta in *. fold (run_game sa sb rounds) in *. fold s' in Hh, Hd, Ht.
  simpl in Hh, Hrd. rewrite Z.add_0_l in Hd, Ht.
  destruct (table_records_small recs Hall) as [Hsa Hsb].
  assert (Hla : length (defender_payoffs recs) = length recs)
    by apply length_map.
  assert (Hlb : length (attacker_payoffs recs) = length recs)
    by apply length_map.
  assert (Hsmall : 8 * Z.of_nat (length recs) < 2 ^ 63) by lia.
  assert (Hcum : forall i : nat, (i < length recs)%nat ->
    np_cumsum (defender_payoffs recs) !! i
      = Some (Zsum (take (Datatypes.S i) (defender_payoffs recs)))
    /\ np_cumsum (attacker_payoffs recs) !! i
      = Some (Zsum (take (Datatypes.S i) (attacker_payoffs recs)))).
  { intros i Hi. unfold np_cumsum.
    rewrite !np_cumsum_from_exact by (auto; lia). auto. }
  unfold P, plot_results. simpl. rewrite Hh.
  fold (defender_payoffs recs). fold (attacker_payoffs recs).
  split.
  { unfold np_cumsum. rewrite !np_cumsum_from_length, length_seqZ.
    repeat split; auto; lia. }
  split.
  { rewrite Hrd. f_equal. lia. }
  split; [exact Hcum |].
  intros Hne.
  assert (Hpos : (0 < length recs)%nat) by (destruct recs; [done | simpl; lia]).
  rewrite !last_lookup. unfold np_cumsum at 1 3.
  rewrite !np_cumsum_from_length, Hla, Hlb.
  destruct (Hcum (pred (length recs)) ltac:(lia)) as [Ha Hb].
  rewrite Ha, Hb, Hd, Ht.
  rewrite !take_ge by lia. auto.
Qed.

Lemma plot_results_agrees_with_session_witness :
  let s' := session_of
              (@run_game ScriptedRandom
                 (PassiveDefender_make_decision {| defense_prob := 0.5 |})
                 RandomAttacker_make_decision 4
                 (NetworkSecurityGame_init, [100; 1; 700; 0; 3; 4; 5; 6])) in
  plot_x (plot_results s') = map round (history s').
Proof.
  cbv zeta.
  refine (proj1 (proj2 (@plot_results_agrees_with_session ScriptedRandom
                          _ _ 4 _ _))).
  lia.
Defined.

(** ** The experiment of [main] *)

Section MainFacts.
Context {R : RandomModule} {L : RandomModuleLaws R}.

(** One iteration with policies in their seats: the run completes and the
    totals grow by the scores of a session of [rounds] rounds. *)
Lemma main_iteration_returns (pa pb : policy) (rounds : Z) (totals : Z * Z)
    (g : rng) :
  defender_policy pa -> attacker_policy pb -> 0 <= rounds ->
  exists (d a : Z) (g' : rng),
    main_iteration pa pb rounds totals g
      = (Returns (fst totals + d, snd totals + a), g')
    /\ -8 * rounds <= d <= 4 * rounds
    /\ rounds <= a <= 8 * rounds
    /\ d <= a.
Proof.
  intros Hpa Hpb Hr.
  pose proof (run_game_policies_complete pa pb rounds g Hpa Hpb) as Hok.
  destruct (for_range_play_round (Z.to_nat rounds)
              (make_decision pa) (make_decision pb)
              NetworkSecurityGame_init g 0 0
              init_scores_defender init_scores_attacker)
    as (recs & _ & _ & Hd & Ht & _ & _ & Hlen & Hall).
  cbv zeta in *.
  fold (run_game (make_decision pa) (make_decision pb) rounds) in Hd, Ht, Hlen.
  specialize (Hlen Hok).
  destruct (table_records_bounds recs Hall) as (Hbd & Hba & Hda).
  unfold main_iteration.
  destruct (run_game (make_decision pa) (make_decision pb) rounds
              (NetworkSecurityGame_init, g)) as [o [game g']].
  unfold outcome_of, session_of in *. simpl in *. subst o.
  rewrite Hd, Ht.
  exists (0 + Zsum (defender_payoffs recs)), (0 + Zsum (attacker_payoffs recs)), g'.
  split; [reflexivity |]. lia.
Qed.

Lemma main_loop_returns (pa pb : policy) (rounds : Z) (n : nat) :
  defender_policy pa -> attacker_policy pb -> 0 <= rounds ->
  forall (totals : Z * Z) (g : rng),
  exists (d a : Z) (g' : rng),
    main_loop n (main_iteration pa pb rounds) totals g
      = (Returns (fst totals + d, snd totals + a), g')
    /\ -8 * rounds * Z.of_nat n <= d <= 4 * rounds * Z.of_nat n
    /\ rounds * Z.of_nat n <= a <= 8 * rounds * Z.of_nat n
    /\ d <= a.
Proof.
  intros Hpa Hpb Hr. induction n as [| n IH]; intros totals g.
  - exists 0, 0, g. simpl. unfold mret, M_ret.
    destruct totals as [d0 a0]. simpl.
    split; [do 2 f_equal; f_equal; lia | lia].
  - destruct (main_iteration_returns pa pb rounds totals g Hpa Hpb Hr)
      as (d1 & a1 & g1 & H1 & Hd1 & Ha1 & Hda1).
    destruct (IH (fst totals + d1, snd totals + a1) g1)
      as (d2 & a2 & g2 & H2 & Hd2 & Ha2 & Hda2).
    exists (d1 + d2), (a1 + a2), g2.
    split.
    + simpl main_loop. rewrite (bind_returns _ _ g _ g1 H1), H2. simpl.
      do 2 f_equal; f_equal; lia.
    + nia.
Qed.

End MainFacts.

(** X17 (the experiment completes).  Over any lawful random source [main]
    returns: none of its ten sessions of 100 rounds raises.  For each of
    the two match-ups the total of the defender's scores over the five
    sessions lies between -4000 and 2000, the total of the attacker's scores
    between 500 and 4000, and the defender's total does not exceed the
    attacker's. *)
Theorem main_completes {R : RandomModule} {L : RandomModuleLaws R} (g : rng) :
  exists (d1 a1 d2 a2 : Z) (g' : rng),
    main g = (Returns ((d1, a1), (d2, a2)), g')
    /\ (-4000 <= d1 <= 2000 /\ 500 <= a1 <= 4000 /\ d1 <= a1)
    /\ (-4000 <= d2 <= 2000 /\ 500 <= a2 <= 4000 /\ d2 <= a2).
Proof.
  destruct (main_loop_returns
              (PolicyEnhancedTitForTat
                 {| is_defender := true; memory_size := 3;
                    role := DefenderRole; opponent_history := [] |})
              PolicyRandomAttacker 100 5
              ltac:(simpl; split; [reflexivity | lia]) I ltac:(lia) (0, 0) g)
    as (d1 & a1 & g1 & H1 & Hd1 & Ha1 & Hda1).
  destruct (main_loop_returns
              (PolicyPassiveDefender {| defense_prob := 0.5 |})
              PolicyRandomAttacker 100 5 I I ltac:(lia) (0, 0) g1)
    as (d2 & a2 & g2 & H2 & Hd2 & Ha2 & Hda2).
  exists d1, a1, d2, a2, g2.
  split; [| lia].
  change (fst (0, 0) + d1, snd (0, 0) + a1) with (d1, a1) in H1.
  change (fst (0, 0) + d2, snd (0, 0) + a2) with (d2, a2) in H2.
  cbv beta iota zeta delta
    [main mbind M_bind lift_outcome EnhancedTitForTat_init PassiveDefender_init].
  rewrite H1, H2. reflexivity.
Qed.

Lemma main_completes_witness :
  exists (d1 a1 d2 a2 : Z) (g' : list Z),
    @main ScriptedRandom [1; 2; 3; 4; 5; 6; 7; 8; 9; 500; 3; 1; 2; 0; 1]
      = (Returns ((d1, a1), (d2, a2)), g')
    /\ (-4000 <= d1 <= 2000 /\ 500 <= a1 <= 4000 /\ d1 <= a1)
    /\ (-4000 <= d2 <= 2000 /\ 500 <= a2 <= 4000 /\ d2 <= a2).
Proof.
  exact (@main_completes ScriptedRandom ScriptedRandom_laws
           [1; 2; 3; 4; 5; 6; 7; 8; 9; 500; 3; 1; 2; 0; 1]).
Defined.

(** ** Two more invariants *)

(** X18 (the rate is a fraction).  Whatever the memory window and the
    history, a rate that [analyze_pattern] returns lies between 0 and 1;
    and it returns [None] exactly on the empty history. *)
Theorem aggressive_rate_range (self : EnhancedTitForTat)
    (h : list RoundRecord) :
  (forall q : Q, analyze_pattern self h = Returns (Some q) ->
     (0 <= q)%Q /\ (q <= 1)%Q)
  /\ (analyze_pattern self h = Returns None <-> h = []).
Proof.
  split.
  - intros q Hq. unfold analyze_pattern in Hq.
    destruct h as [| r0 h0]; [discriminate |].
    set (moves := map _ (slice_from _ _)) in Hq.
    rewrite Zsum_ones in Hq.
    pose proof (length_filter (fun move => is_aggressive self move = true) moves)
      as Hc.
    destruct (length moves) as [| n] eqn:Hn; [discriminate |].
    inversion Hq; subst q; clear Hq.
    assert (Hpos : (0 < inject_Z (Z.of_nat (Datatypes.S n)))%Q)
      by (rewrite <- (Zlt_Qlt 0); lia).
    split.
    + apply Qle_shift_div_l; [exact Hpos |].
      rewrite Qmult_0_l. rewrite <- (Zle_Qle 0). lia.
    + apply Qle_shift_div_r; [exact Hpos |].
      rewrite Qmult_1_l. rewrite <- Zle_Qle. lia.
  - split.
    + unfold analyze_pattern. destruct h as [| r0 h0]; [reflexivity |].
      destruct (length _); discriminate.
    + intros ->. reflexivity.
Qed.

Lemma aggressive_rate_range_witness :
  (0 <= 1 # 2)%Q /\ (1 # 2 <= 1)%Q.
Proof.
  refine (proj1 (aggressive_rate_range
    {| is_defender := true; memory_size := 3;
       role := DefenderRole; opponent_history := [] |}
    [ {| round := 1; decisions := (Defend, Attack); payoffs := (-2, 1) |};
      {| round := 2; decisions := (Defend, DoNotAttack); payoffs := (3, 3) |} ])
    (1 # 2)%Q _).
  reflexivity.
Defined.

(** X19 (the history holds only valid rounds).  After any run on a fresh
    session, with any strategies and however it ends, every record of the
    history holds a defender action and an attacker action of the two
    domains and the payoff pair the table gives for them: an answer outside
    the domains is never recorded. *)
Theorem history_records_valid {R : RandomModule} (sa sb : strategy)
    (rounds : Z) (g : rng) :
  Forall (fun r =>
            valid_pair (fst (decisions r)) (snd (decisions r))
            /\ payoff_matrix NetworkSecurityGame_init !! decisions r
               = Some (payoffs r))
    (history (session_of (run_game sa sb rounds (NetworkSecurityGame_init, g)))).
Proof.
  destruct (for_range_play_round (Z.to_nat rounds) sa sb
              NetworkSecurityGame_init g 0 0
              init_scores_defender init_scores_attacker)
    as (recs & _ & Hh & _ & _ & _ & _ & _ & Hall).
  cbv zeta in *. fold (run_game sa sb rounds) in Hh. rewrite Hh. simpl.
  eapply Forall_impl; [exact Hall |].
  intros [n [a b] p] Hk. simpl in *. split; [| exact Hk].
  apply init_payoff_keys. eauto.
Qed.
